(** * stunning-solana: the deployment orchestration of [grok.copilot.ts]

    A shallow embedding of the relay submitter, the four deployment steps,
    rollback, environment validation and the interactive menu of
    [src/grok.copilot.ts], followed by the properties of the orchestration
    that the specification states about them.

    The program talks to three collaborators: the ledger (read through the
    RPC connection), the relay (an HTTP endpoint that pays the fee and
    broadcasts) and the local [.cache] directory.  They are the fields of
    [World]; every source function becomes a computation in the monad [M],
    which threads the world, records the observable calls in a trace and
    propagates thrown errors the way JavaScript does.

    The source calls its libraries as if they built instructions.  They do
    not: [createMint], [getOrCreateAssociatedTokenAccount], [mintTo] and
    [setAuthority] of '@solana/spl-token' each send a transaction of their
    own through the connection, paid by the keypair given as payer, and
    return a public key, an account or a signature; [getTokenAccountBalance]
    is not a function of that library; [connection.getTokenSupply] answers
    with an amount, which has no authority fields; the two metadata builders
    of '@metaplex-foundation/mpl-token-metadata' 3.x take a context first
    and throw on the call the source makes; and [tx.partialSign] needs the
    recent blockhash, which only [sendViaRelayer] sets.  Each call is
    modelled by what it does, under the name the source uses.

    The [.cache] directory is represented by its two files, its creation
    being folded into the writes.  Console output is not modelled. *)

From stdpp Require Import gmap strings list pretty.

Open Scope string_scope.

(** ** Data *)

(** A public key is handled through its base58 text. *)
Abbreviation PublicKey := string (only parsing).

Record Keypair := { publicKey : PublicKey }.

Definition OWNER_ADDRESS : PublicKey := "EdFC98d1BBhJkeh7KDq26TwEGLeznhoyYsY6Y8LFY4y6".
Definition TOKEN_2022_PROGRAM_ID : PublicKey := "TokenzQdBNbLqP5VEhdkAS6EPFLC1PHnBqCXEpPxuEb".
Definition TOKEN_METADATA_PROGRAM_ID : PublicKey := "metaqbxxUerdq28cj1RbAWkYQm3ybzjb6a8bt518x1s".
Definition ASSOCIATED_TOKEN_PROGRAM_ID : PublicKey := "ATokenGPvbdGVxr1b2hvZbsiqW5xWH25efTNsLJA8knL".
Definition DRY_RUN_SIGNATURE : string := "DRY_RUN_SIGNATURE".

(** The constant [METADATA] of [setTokenMetadata]; the data URI built from it
    is represented by the record it encodes. *)
Record Metadata := {
  md_name : string;
  md_symbol : string;
  md_description : string;
  md_image : string;
  md_external_url : string
}.

Record DataV2 := {
  name : string;
  symbol : string;
  uri : Metadata;
  sellerFeeBasisPoints : N
}.

(** The instructions of the transactions the token library sends --
    [CreateMint] stands for the account creation and the mint initialisation
    that [createMint] sends together -- and [Unparsed key]: what
    [Transaction.add] makes of a public key, an instruction without program
    id. *)
Inductive Instruction :=
| CreateMint (payer mintAuthority freezeAuthority : PublicKey) (decimals : N) (mint : PublicKey)
| CreateAssociatedTokenAccount (payer mint owner : PublicKey)
| MintTo (mint destination authority : PublicKey) (amount : N)
| SetAuthority (mint currentAuthority : PublicKey) (authorityType : string)
    (newAuthority : option PublicKey)
| Unparsed (key : PublicKey).

(** What the source hands to [Transaction.add]: the public key [createMint]
    returns, the signature [mintTo] and [setAuthority] return, or the
    [instruction] property of an account, which is [undefined]. *)
Inductive Item :=
| ItemPublicKey (key : PublicKey)
| ItemString (s : string)
| ItemUndefined.

Record Transaction := {
  feePayer : option PublicKey;
  recentBlockhash : option string;
  instructions : list Instruction;
  signatures : list PublicKey
}.

Definition newTransaction : Transaction :=
  {| feePayer := None; recentBlockhash := None; instructions := []; signatures := [] |}.

Definition withAnchor (tx : Transaction) (payer : PublicKey) (blockhash : string) : Transaction :=
  {| feePayer := Some payer; recentBlockhash := Some blockhash;
     instructions := instructions tx; signatures := signatures tx |}.

(** How a call ends: with a value, or with a thrown error, known by its
    message. *)
Inductive Completion (A : Type) :=
| Return (a : A)
| Throw (message : string).
Arguments Return {A} a.
Arguments Throw {A} message.

(** ** The collaborators *)

(** What an address resolves to on the ledger. *)
Inductive Account :=
| MintAccount (mintAuthority freezeAuthority : option PublicKey)
| TokenAccount (amount : N)
| DataAccount.

(** The value of the reply to [getTokenSupply]. *)
Record TokenAmount := { amount : N; decimals : N }.

(** [info.value.mintAuthority] and [info.value.freezeAuthority]: a token
    amount has neither property, and reading them gives [undefined]. *)
Definition mintAuthority (info : TokenAmount) : option PublicKey := None.
Definition freezeAuthority (info : TokenAmount) : option PublicKey := None.

(** The relay's answer to one POST, and the outcome of the confirmation wait
    that follows an accepted one. *)
Inductive RelayResponse :=
| FetchError (message : string)
| RelayFailure (error : option string)
| RelaySuccess (txSignature : string).

Inductive Confirmation :=
| ConfirmError (message : string)
| ConfirmValue (err : option string).

Record Attempt := { response : RelayResponse; confirmation : Confirmation }.

Definition unreachable : Attempt :=
  {| response := FetchError "fetch failed"; confirmation := ConfirmError "fetch failed" |}.

(** The cache directory: the checkpoint [.cache/mint.json], holding the
    asset address, and the identity [.cache/user_auth.json]. *)
Record Files := {
  mintJson : option string;
  userAuthJson : option Keypair
}.

(** [env] is [process.env]; [rpcReachable] tells whether the RPC endpoint
    answers; [relayScript] lists the relay's answers to the POSTs to come,
    each with the outcome of the confirmation wait that would follow it;
    [entropy] counts the keypairs generated so far. *)
Record World := {
  env : gmap string string;
  files : Files;
  ledger : gmap string Account;
  latestBlockhash : string;
  rpcReachable : bool;
  relayScript : list Attempt;
  entropy : nat
}.

Inductive Seed := SeedText (s : string) | SeedKey (k : PublicKey).

(** What the program takes from its libraries and from the ledger's
    programs: which strings [new PublicKey] and [new Connection] accept,
    address derivation, the keypairs [Keypair.generate] hands out in turn,
    which keys lie on the curve, the effect on the ledger of a transaction
    that settles, the cluster's answer to a transaction sent to it directly
    (an error, or the signature under which it settles), and the supply it
    reports for a mint. *)
Record Platform := {
  validKey : string → bool;
  validEndpoint : string → bool;
  findProgramAddressSync : list Seed → PublicKey → PublicKey;
  keypairOf : nat → Keypair;
  onCurve : PublicKey → bool;
  settle : Transaction → gmap string Account → gmap string Account;
  broadcast : Transaction → gmap string Account → Completion string;
  tokenSupply : gmap string Account → PublicKey → TokenAmount
}.

Inductive RpcCall :=
| GetLatestBlockhash
| GetAccountInfo (address : PublicKey)
| GetTokenSupply (address : PublicKey)
| GetMint (address : PublicKey)
| GetMinimumBalanceForRentExemption
| ConfirmTransaction (signature : string) (blockhash : string).

(** [EvSend tx]: the token library signs [tx] and sends it through the
    connection itself, without the relay. *)
Inductive Event :=
| EvRpc (call : RpcCall)
| EvSerialize (tx : Transaction)
| EvPost (url : string) (authorization : option string) (payload : Transaction)
| EvSleep (ms : N)
| EvSend (tx : Transaction).

(** ** The monad *)

Definition M (A : Type) : Type := World → Completion A * World * list Event.

Definition ret {A} (a : A) : M A := λ w, (Return a, w, []).

Definition bind {A B} (m : M A) (k : A → M B) : M B :=
  λ w, match m w with
       | (Return a, w1, t1) => let '(r, w2, t2) := k a w1 in (r, w2, (t1 ++ t2)%list)
       | (Throw e, w1, t1) => (Throw e, w1, t1)
       end.

Definition throw {A} (message : string) : M A := λ w, (Throw message, w, []).

Definition tryCatch {A} (body : M A) (handler : string → M A) : M A :=
  λ w, match body w with
       | (Return a, w1, t1) => (Return a, w1, t1)
       | (Throw e, w1, t1) => let '(r, w2, t2) := handler e w1 in (r, w2, (t1 ++ t2)%list)
       end.

#[global] Instance M_ret : MRet M := @ret.
#[global] Instance M_bind : MBind M := λ A B k m, bind m k.

Definition emit (e : Event) : M unit := λ w, (Return tt, w, [e]).
Definition getWorld : M World := λ w, (Return w, w, []).

Definition result {A} (x : Completion A * World * list Event) : Completion A := x.1.1.
Definition after {A} (x : Completion A * World * list Event) : World := x.1.2.
Definition trace {A} (x : Completion A * World * list Event) : list Event := x.2.

(** ** Transactions *)

(** [tx.add(item)]: an object that is neither a transaction nor an
    instruction is wrapped into an instruction as it is; on a string or on
    [undefined] the [in] test that tells them apart throws. *)
Definition add (tx : Transaction) (item : Item) : M Transaction :=
  match item with
  | ItemPublicKey key =>
      mret {| feePayer := feePayer tx; recentBlockhash := recentBlockhash tx;
              instructions := (instructions tx ++ [Unparsed key])%list;
              signatures := signatures tx |}
  | ItemString s =>
      throw ("Cannot use 'in' operator to search for 'instructions' in " ++ s)
  | ItemUndefined =>
      throw "Cannot use 'in' operator to search for 'instructions' in undefined"
  end.

(** The index of the first instruction without a program id, counting
    from [i]. *)
Fixpoint unparsed (ixs : list Instruction) (i : nat) : option nat :=
  match ixs with
  | [] => None
  | Unparsed _ :: _ => Some i
  | _ :: rest => unparsed rest (S i)
  end.

(** [tx.partialSign(...signers)]: the message is compiled before it is
    signed, and compiling needs the recent blockhash, a fee payer and a
    program id in every instruction. *)
Definition partialSign (tx : Transaction) (signers : list Keypair) : M Transaction :=
  match signers with
  | [] => throw "No signers"
  | _ =>
      match recentBlockhash tx with
      | None => throw "Transaction recentBlockhash required"
      | Some _ =>
          if bool_decide (feePayer tx = None ∧ signatures tx = [])
          then throw "Transaction fee payer required"
          else
            match unparsed (instructions tx) 0 with
            | Some i =>
                throw ("Transaction instruction index " ++ pretty i ++
                       " has undefined program id")
            | None =>
                mret {| feePayer := feePayer tx; recentBlockhash := recentBlockhash tx;
                        instructions := instructions tx;
                        signatures := (signatures tx ++ (publicKey <$> signers))%list |}
            end
      end
  end.

(** ** The environment and the cache directory *)

(** JavaScript truthiness of a possibly undefined string. *)
Definition truthy (v : option string) : bool :=
  match v with
  | Some s => negb (String.eqb s "")
  | None => false
  end.

(** [value || fallback] on strings. *)
Definition orElse (value : option string) (fallback : string) : string :=
  if truthy value then default "" value else fallback.

Definition getenv (key : string) : M (option string) :=
  λ w, (Return (env w !! key), w, []).

Definition setFiles (f : Files) (w : World) : World :=
  {| env := env w; files := f; ledger := ledger w;
     latestBlockhash := latestBlockhash w; rpcReachable := rpcReachable w;
     relayScript := relayScript w; entropy := entropy w |}.

Definition setLedger (l : gmap string Account) (w : World) : World :=
  {| env := env w; files := files w; ledger := l;
     latestBlockhash := latestBlockhash w; rpcReachable := rpcReachable w;
     relayScript := relayScript w; entropy := entropy w |}.

Definition setRelayScript (s : list Attempt) (w : World) : World :=
  {| env := env w; files := files w; ledger := ledger w;
     latestBlockhash := latestBlockhash w; rpcReachable := rpcReachable w;
     relayScript := s; entropy := entropy w |}.

Definition setEntropy (n : nat) (w : World) : World :=
  {| env := env w; files := files w; ledger := ledger w;
     latestBlockhash := latestBlockhash w; rpcReachable := rpcReachable w;
     relayScript := relayScript w; entropy := n |}.

Definition setEnv (e : gmap string string) (w : World) : World :=
  {| env := e; files := files w; ledger := ledger w;
     latestBlockhash := latestBlockhash w; rpcReachable := rpcReachable w;
     relayScript := relayScript w; entropy := entropy w |}.

Definition setenv (key value : string) : M unit :=
  λ w, (Return tt, setEnv (<[key := value]> (env w)) w, []).

Definition readMintJson : M (option string) := λ w, (Return (mintJson (files w)), w, []).
Definition readUserAuthJson : M (option Keypair) := λ w, (Return (userAuthJson (files w)), w, []).

Definition writeMintJson (mint : string) : M unit :=
  λ w, (Return tt,
        setFiles {| mintJson := Some mint; userAuthJson := userAuthJson (files w) |} w, []).

Definition writeUserAuthJson (k : Keypair) : M unit :=
  λ w, (Return tt,
        setFiles {| mintJson := mintJson (files w); userAuthJson := Some k |} w, []).

Definition unlinkMintJson : M unit :=
  λ w, (Return tt,
        setFiles {| mintJson := None; userAuthJson := userAuthJson (files w) |} w, []).

Definition unlinkUserAuthJson : M unit :=
  λ w, (Return tt,
        setFiles {| mintJson := mintJson (files w); userAuthJson := None |} w, []).

Section Deployment.

Context (P : Platform).

(** [Keypair.generate()] *)
Definition generate : M Keypair :=
  λ w, (Return (keypairOf P (entropy w)), setEntropy (S (entropy w)) w, []).

(** [new PublicKey(value)] *)
Definition newPublicKey (value : option string) : M PublicKey :=
  match value with
  | Some s => if validKey P s then ret s else throw "Invalid public key input"
  | None => throw "Invalid public key input"
  end.

(** [new Connection(process.env.RPC_URL!, 'confirmed')] *)
Definition newConnection : M unit :=
  url ← getenv "RPC_URL";
  match url with
  | Some u => if validEndpoint P u then ret tt
              else throw "Endpoint URL must start with `http:` or `https:`."
  | None => throw "Endpoint URL must start with `http:` or `https:`."
  end.

(** A read through the connection. *)
Definition rpc {A} (call : RpcCall) (answer : World → Completion A) : M A :=
  λ w, if rpcReachable w then (answer w, w, [EvRpc call])
       else (Throw "fetch failed", w, [EvRpc call]).

Definition getLatestBlockhash : M string :=
  rpc GetLatestBlockhash (λ w, Return (latestBlockhash w)).

Definition getAccountInfo (address : PublicKey) : M (option Account) :=
  rpc (GetAccountInfo address) (λ w, Return (ledger w !! address)).

(** [connection.getTokenSupply(mint)]: the reply is a token amount. *)
Definition getTokenSupply (address : PublicKey) : M TokenAmount :=
  rpc (GetTokenSupply address)
      (λ w, match ledger w !! address with
            | Some (MintAccount _ _) =>
                Return (tokenSupply P (ledger w) address)
            | _ => Throw "failed to get token supply: Invalid param: not a Token mint"
            end).

(** ** The token library *)

(** [getTokenAccountBalance] is imported from '@solana/spl-token', which has
    no export of that name ([getTokenAccountBalance] is a method of the
    connection): the imported binding is [undefined], and the call throws
    before anything is asked of the network. *)
Definition getTokenAccountBalance (address : PublicKey) : M N :=
  throw "getTokenAccountBalance is not a function".

Definition getMint (address : PublicKey) : M (option PublicKey * option PublicKey) :=
  rpc (GetMint address)
      (λ w, match ledger w !! address with
            | Some (MintAccount ma fa) => Return (ma, fa)
            | _ => Throw "TokenAccountNotFoundError"
            end).

(** [sendAndConfirmTransaction(connection, transaction, signers)]: the
    library resolves a blockhash, signs with [signers], the first of them
    paying the fee, sends the transaction to the RPC node and waits for it.
    The send and the wait are one event, [EvSend]; the node's answer and the
    effect on the ledger are the platform's. *)
Definition sendAndConfirmTransaction (ixs : list Instruction) (signers : list Keypair) :
    M string :=
  blockhash ← getLatestBlockhash;
  let tx := {| feePayer := publicKey <$> head signers; recentBlockhash := Some blockhash;
               instructions := ixs; signatures := publicKey <$> signers |} in
  ((λ w, match broadcast P tx (ledger w) with
         | Return signature =>
             (Return signature, setLedger (settle P tx (ledger w)) w, [EvSend tx])
         | Throw e => (Throw e, w, [EvSend tx])
         end) : M string).

(** [createMint(connection, payer, mintAuthority, freezeAuthority, decimals,
    keypair, ...)] creates the mint on the ledger and returns its address. *)
Definition createMint (payer : Keypair) (mintAuthority freezeAuthority : PublicKey)
    (decimals : N) (keypair : Keypair) : M PublicKey :=
  rpc GetMinimumBalanceForRentExemption (λ _, Return tt);;
  sendAndConfirmTransaction
    [CreateMint (publicKey payer) mintAuthority freezeAuthority decimals (publicKey keypair)]
    [payer; keypair];;
  mret (publicKey keypair).

(** [getAccount(connection, address)] of the library. *)
Definition getAccount (address : PublicKey) : M N :=
  rpc (GetAccountInfo address)
      (λ w, match ledger w !! address with
            | Some (TokenAccount amount) => Return amount
            | Some (MintAccount _ _) => Throw "TokenInvalidAccountSizeError"
            | Some DataAccount => Throw "TokenInvalidAccountOwnerError"
            | None => Throw "TokenAccountNotFoundError"
            end).

(** [getAssociatedTokenAddressSync(mint, owner, false, programId)] *)
Definition getAssociatedTokenAddressSync (mint owner : PublicKey) : M PublicKey :=
  if onCurve P owner
  then mret (findProgramAddressSync P
               [SeedKey owner; SeedKey TOKEN_2022_PROGRAM_ID; SeedKey mint]
               ASSOCIATED_TOKEN_PROGRAM_ID)
  else throw "TokenOwnerOffCurveError".

(** [getOrCreateAssociatedTokenAccount(connection, payer, mint, owner, ...)]
    looks the account up, creates it when it is not there, ignoring every
    error of the creation, and looks it up again.  It returns the account,
    here its balance; the library's closing comparison of the account's mint
    and owner with the arguments has nothing to compare in this ledger. *)
Definition getOrCreateAssociatedTokenAccount (payer : Keypair) (mint owner : PublicKey) :
    M N :=
  associatedToken ← getAssociatedTokenAddressSync mint owner;
  tryCatch (getAccount associatedToken)
    (λ e, if String.eqb e "TokenAccountNotFoundError" ||
             String.eqb e "TokenInvalidAccountOwnerError"
          then tryCatch
                 (sendAndConfirmTransaction
                    [CreateAssociatedTokenAccount (publicKey payer) mint owner] [payer];;
                  mret tt)
                 (λ _, mret tt);;
               getAccount associatedToken
          else throw e).

(** [account.instruction]: the account the library returns has no such
    property. *)
Definition instruction (account : N) : Item := ItemUndefined.

(** [mintTo(connection, payer, mint, destination, authority, amount, ...)]
    mints and returns the signature; [authority] being a public key, the
    payer is the only signer. *)
Definition mintTo (payer : Keypair) (mint destination authority : PublicKey) (amount : N) :
    M string :=
  sendAndConfirmTransaction [MintTo mint destination authority amount] [payer].

(** [setAuthority(connection, payer, account, currentAuthority,
    authorityType, newAuthority, ...)] changes the authority and returns the
    signature. *)
Definition setAuthority (payer : Keypair) (account currentAuthority : PublicKey)
    (authorityType : string) (newAuthority : option PublicKey) : M string :=
  sendAndConfirmTransaction
    [SetAuthority account currentAuthority authorityType newAuthority] [payer].

(** ** The metadata library *)

(** [createMetadataAccountV3(input)]: in
    '@metaplex-foundation/mpl-token-metadata' 3.x the first parameter is the
    context and the input is the second; called with the input alone, the
    builder reads [context.programs.getPublicKey] of an object without
    [programs] and throws. *)
Definition createMetadataAccountV3 (metadata mint mintAuthority payer updateAuthority : PublicKey)
    (data : DataV2) : M Item :=
  throw "Cannot read properties of undefined (reading 'getPublicKey')".

(** The library has no [updateMetadataAccountV3] at that version: the
    imported binding is [undefined], and the call throws. *)
Definition updateMetadataAccountV3 (metadata updateAuthority : PublicKey) (data : DataV2) :
    M Item :=
  throw "updateMetadataAccountV3 is not a function".

(** ** Utility functions *)

Definition findMetadataPda (mint : PublicKey) : PublicKey :=
  findProgramAddressSync P
    [SeedText "metadata"; SeedKey TOKEN_METADATA_PROGRAM_ID; SeedKey mint]
    TOKEN_METADATA_PROGRAM_ID.

Definition findAssociatedTokenAddress (owner mint : PublicKey) : PublicKey :=
  findProgramAddressSync P
    [SeedKey owner; SeedKey TOKEN_2022_PROGRAM_ID; SeedKey mint]
    ASSOCIATED_TOKEN_PROGRAM_ID.

Definition loadOrCreateUserAuth : M Keypair :=
  cached ← readUserAuthJson;
  match cached with
  | Some keypair => mret keypair
  | None =>
      keypair ← generate;
      writeUserAuthJson keypair;;
      mret keypair
  end.

(** ** The relay submitter *)

(** [fetch(relayerUrl, { method: 'POST', ... })] followed by [res.json()]:
    the next entry of the relay's script answers; a relay whose script has
    run out is unreachable. *)
Definition fetch (url : option string) (authorization : option string)
    (body : Transaction) : M Attempt :=
  match url with
  | None => throw "Failed to parse URL from undefined"
  | Some u =>
      λ w, let a := hd unreachable (relayScript w) in
           (match response a with
            | FetchError m => Throw m
            | _ => Return a
            end,
            setRelayScript (tl (relayScript w)) w,
            [EvPost u authorization body])
  end.

(** [connection.confirmTransaction({ signature, blockhash, lastValidBlockHeight })]:
    the wait either rejects or resolves; when it resolves without an
    execution error the broadcast transaction has settled on the ledger. *)
Definition confirmTransaction (signature : string) (tx : Transaction)
    (outcome : Confirmation) : M unit :=
  λ w, let ev := [EvRpc (ConfirmTransaction signature (default "" (recentBlockhash tx)))] in
       match outcome with
       | ConfirmError m => (Throw m, w, ev)
       | ConfirmValue (Some _) => (Return tt, w, ev)
       | ConfirmValue None =>
           (Return tt, setLedger (settle P tx (ledger w)) w, ev)
       end.

Definition sleep (ms : N) : M unit := emit (EvSleep ms).

(** The body of the [for (let attempt = 1; attempt <= 3; attempt++)] loop;
    [remaining] counts the iterations left, so the loop is entered with
    [remaining = 3] and [attempt = 1]. *)
Fixpoint relayAttempts (remaining attempt : nat) (relayerUrl authorization : option string)
    (payload : Transaction) : M string :=
  match remaining with
  | 0 => throw "Relayer unreachable"
  | S remaining' =>
      tryCatch
        (a ← fetch relayerUrl authorization payload;
         match response a with
         | RelaySuccess txSignature =>
             confirmTransaction txSignature payload (confirmation a);;
             mret txSignature
         | RelayFailure error =>
             throw (orElse error ("Relayer error (attempt " ++ pretty attempt ++ ")"))
         | FetchError m => throw m
         end)
        (λ e, if Nat.eqb attempt 3
              then throw ("Relayer failed after 3 attempts: " ++ e)
              else sleep 1000;;
                   relayAttempts remaining' (S attempt) relayerUrl authorization payload)
  end.

(** [if (apiKey) headers['Authorization'] = `Bearer ${apiKey}`] *)
Definition authorizationHeader (apiKey : option string) : option string :=
  if truthy apiKey then Some ("Bearer " ++ default "" apiKey) else None.

Definition sendViaRelayer (relayerPubkey : PublicKey) (relayerUrl : option string)
    (tx : Transaction) (apiKey : option string) : M string :=
  blockhash ← getLatestBlockhash;
  let payload := withAnchor tx relayerPubkey blockhash in
  emit (EvSerialize payload);;
  dryRun ← getenv "DRY_RUN";
  if bool_decide (dryRun = Some "true") then mret DRY_RUN_SIGNATURE
  else relayAttempts 3 1 relayerUrl (authorizationHeader apiKey) payload.

(** ** The deployment steps *)

Definition createTokenMint : M PublicKey :=
  newConnection;;
  userAuth ← loadOrCreateUserAuth;
  relayerKey ← getenv "RELAYER_PUBKEY";
  relayerPubkey ← newPublicKey relayerKey;
  cached ← readMintJson;
  existing ← match cached with
             | Some mint =>
                 key ← newPublicKey (Some mint);
                 mintInfo ← getAccountInfo key;
                 mret (if (mintInfo : option Account) is Some _ then Some key else None)
             | None => mret None
             end;
  match existing with
  | Some key => mret key
  | None =>
      mintKeypair ← generate;
      created ← createMint userAuth (publicKey userAuth) (publicKey userAuth) 9 mintKeypair;
      tx ← add newTransaction (ItemPublicKey created);
      tx ← partialSign tx [userAuth; mintKeypair];
      relayerUrl ← getenv "RELAYER_URL";
      apiKey ← getenv "RELAYER_API_KEY";
      signature ← sendViaRelayer relayerPubkey relayerUrl tx apiKey;
      (if negb (String.eqb signature DRY_RUN_SIGNATURE)
       then writeMintJson (publicKey mintKeypair)
       else mret tt);;
      mret (publicKey mintKeypair)
  end.

(** [BigInt(1000000000) * BigInt(10 ** 9)] *)
Definition supply : N := (1000000000 * 10 ^ 9)%N.

Definition mintInitialSupply : M unit :=
  newConnection;;
  userAuth ← loadOrCreateUserAuth;
  relayerKey ← getenv "RELAYER_PUBKEY";
  relayerPubkey ← newPublicKey relayerKey;
  treasuryKey ← getenv "TREASURY_PUBKEY";
  treasuryPubkey ← newPublicKey treasuryKey;
  cached ← readMintJson;
  match cached with
  | None => throw "Mint not created. Run create mint first."
  | Some m =>
      mint ← newPublicKey (Some m);
      let treasuryAta := findAssociatedTokenAddress treasuryPubkey mint in
      ataInfo ← getAccountInfo treasuryAta;
      minted ← (if (ataInfo : option Account) is Some _
                then balance ← getTokenAccountBalance treasuryAta;
                     mret (N.eqb balance supply)
                else mret false);
      if (minted : bool) then mret tt
      else
        let tx := newTransaction in
        tx ← (if ataInfo is Some _ then mret tx
              else account ← getOrCreateAssociatedTokenAccount userAuth mint treasuryPubkey;
                   add tx (instruction account));
        signature ← mintTo userAuth mint treasuryAta (publicKey userAuth) supply;
        tx ← add tx (ItemString signature);
        tx ← partialSign tx [userAuth];
        relayerUrl ← getenv "RELAYER_URL";
        apiKey ← getenv "RELAYER_API_KEY";
        sendViaRelayer relayerPubkey relayerUrl tx apiKey;;
        mret tt
  end.

Definition METADATA : Metadata :=
  {| md_name := "Omega Prime Token";
     md_symbol := "ΩAGENT";
     md_description := "Agent guild utility token powering Ω-Prime automations on Solana.";
     md_image := "https://<hosted-image>/logo.png";
     md_external_url := "https://<site>" |}.

Definition metadataData : DataV2 :=
  {| name := md_name METADATA; symbol := md_symbol METADATA; uri := METADATA;
     sellerFeeBasisPoints := 0 |}.

Definition setTokenMetadata : M unit :=
  newConnection;;
  userAuth ← loadOrCreateUserAuth;
  relayerKey ← getenv "RELAYER_PUBKEY";
  relayerPubkey ← newPublicKey relayerKey;
  cached ← readMintJson;
  match cached with
  | None => throw "Mint not created. Run create mint first."
  | Some m =>
      mint ← newPublicKey (Some m);
      let metadataPda := findMetadataPda mint in
      metadataAccount ← getAccountInfo metadataPda;
      item ← (if (metadataAccount : option Account) is Some _
              then updateMetadataAccountV3 metadataPda (publicKey userAuth) metadataData
              else createMetadataAccountV3 metadataPda mint (publicKey userAuth)
                     (publicKey userAuth) (publicKey userAuth) metadataData);
      tx ← add newTransaction item;
      tx ← partialSign tx [userAuth];
      relayerUrl ← getenv "RELAYER_URL";
      apiKey ← getenv "RELAYER_API_KEY";
      sendViaRelayer relayerPubkey relayerUrl tx apiKey;;
      mret tt
  end.

(** [authorityMode === 'dao' && daoPubkey ? daoPubkey
     : authorityMode === 'treasury' ? treasuryPubkey : null] *)
Definition targetAuthority (authorityMode : string) (daoPubkey : option PublicKey)
    (treasuryPubkey : PublicKey) : option PublicKey :=
  match String.eqb authorityMode "dao", daoPubkey with
  | true, Some dao => Some dao
  | _, _ => if String.eqb authorityMode "treasury" then Some treasuryPubkey else None
  end.

Definition authorityTypes : list string := ["MintTokens"; "FreezeAccount"].

(** [currentAuthority && (!targetAuthority || !currentAuthority.equals(targetAuthority))] *)
Definition needsChange (currentAuthority target : option PublicKey) : bool :=
  match currentAuthority with
  | None => false
  | Some current =>
      match target with
      | None => true
      | Some t => negb (String.eqb current t)
      end
  end.

(** The first loop of [lockAuthorities]: one transaction per authority type
    that has to change, pushed onto [txs]. *)
Fixpoint collectAuthorityTxs (authTypes : list string) (mint : PublicKey) (userAuth : Keypair)
    (target : option PublicKey) (txs : list Transaction) : M (list Transaction) :=
  match authTypes with
  | [] => mret txs
  | authType :: rest =>
      info ← getTokenSupply mint;
      let currentAuthority :=
        if String.eqb authType "MintTokens" then mintAuthority info
        else freezeAuthority info in
      txs ← (if needsChange currentAuthority target
             then signature ← setAuthority userAuth mint (publicKey userAuth) authType
                                target;
                  tx ← add newTransaction (ItemString signature);
                  mret (txs ++ [tx])%list
             else mret txs);
      collectAuthorityTxs rest mint userAuth target txs
  end.

(** The second loop of [lockAuthorities]. *)
Fixpoint sendAuthorityTxs (txs : list Transaction) (userAuth : Keypair)
    (relayerPubkey : PublicKey) : M unit :=
  match txs with
  | [] => mret tt
  | tx :: rest =>
      tx ← partialSign tx [userAuth];
      relayerUrl ← getenv "RELAYER_URL";
      apiKey ← getenv "RELAYER_API_KEY";
      sendViaRelayer relayerPubkey relayerUrl tx apiKey;;
      sendAuthorityTxs rest userAuth relayerPubkey
  end.

Definition lockAuthorities : M unit :=
  newConnection;;
  userAuth ← loadOrCreateUserAuth;
  relayerKey ← getenv "RELAYER_PUBKEY";
  relayerPubkey ← newPublicKey relayerKey;
  treasuryKey ← getenv "TREASURY_PUBKEY";
  treasuryPubkey ← newPublicKey treasuryKey;
  daoKey ← getenv "DAO_PUBKEY";
  daoPubkey ← (if truthy daoKey then dao ← newPublicKey daoKey; mret (Some dao)
               else mret None);
  mode ← getenv "AUTHORITY_MODE";
  let authorityMode := orElse mode "null" in
  cached ← readMintJson;
  match cached with
  | None => throw "Mint not created. Run create mint first."
  | Some m =>
      mint ← newPublicKey (Some m);
      mintInfo ← getAccountInfo mint;
      match mintInfo with
      | None => throw "Mint not found."
      | Some _ =>
          let target := targetAuthority authorityMode daoPubkey treasuryPubkey in
          txs ← collectAuthorityTxs authorityTypes mint userAuth target [];
          sendAuthorityTxs txs userAuth relayerPubkey
      end
  end.

Definition rollback : M unit :=
  cached ← readMintJson;
  match cached with
  | Some m =>
      mint ← newPublicKey (Some m);
      newConnection;;
      let metadataPda := findMetadataPda mint in
      getAccountInfo mint;;
      getAccountInfo metadataPda;;
      unlinkMintJson
  | None => mret tt
  end;;
  userAuth ← readUserAuthJson;
  if (userAuth : option Keypair) is Some _ then unlinkUserAuthJson else mret tt.

(** ** Environment validation, status and the menu *)

Definition required : list string :=
  ["RPC_URL"; "RELAYER_URL"; "RELAYER_PUBKEY"; "TREASURY_PUBKEY"].

Definition authorityModes : list string := ["null"; "dao"; "treasury"].

Definition checkEnv : M bool :=
  w ← getWorld;
  if negb (forallb (λ key, truthy (env w !! key)) required) then mret false
  else
    keysOk ← tryCatch
      (newPublicKey (env w !! "RELAYER_PUBKEY");;
       newPublicKey (env w !! "TREASURY_PUBKEY");;
       if negb (bool_decide (env w !! "TREASURY_PUBKEY" = Some OWNER_ADDRESS)) then mret false
       else
         (if truthy (env w !! "DAO_PUBKEY") then newPublicKey (env w !! "DAO_PUBKEY");; mret tt
          else mret tt);;
         mret true)
      (λ _, mret false);
    if negb keysOk then mret false
    else if negb (bool_decide (orElse (env w !! "AUTHORITY_MODE") "" ∈ authorityModes))
    then mret false
    else
      newConnection;;
      tryCatch (getLatestBlockhash;; mret true) (λ _, mret false).

Definition checkDeploymentStatus : M unit :=
  newConnection;;
  treasuryKey ← getenv "TREASURY_PUBKEY";
  treasuryPubkey ← newPublicKey treasuryKey;
  cached ← readMintJson;
  match cached with
  | None => mret tt
  | Some m =>
      mint ← newPublicKey (Some m);
      tryCatch
        (getMint mint;;
         getTokenAccountBalance (findAssociatedTokenAddress treasuryPubkey mint);;
         getAccountInfo (findMetadataPda mint);;
         mret tt)
        (λ _, mret tt)
  end.

Definition runAllSteps : M unit :=
  createTokenMint;;
  mintInitialSupply;;
  setTokenMetadata;;
  lockAuthorities.

(** How a run of the menu ends: [process.exit(0)] on choice 9, or the prompt
    waiting for a line that is not there. *)
Inductive Session := Exited (code : Z) | AwaitingInput.

(** The [switch (choice)] of [grokCopilot]; [true] when the case exits. *)
Definition selectAction (choice : string) : M bool :=
  if String.eqb choice "1" then runAllSteps;; mret false
  else if String.eqb choice "2" then createTokenMint;; mret false
  else if String.eqb choice "3" then mintInitialSupply;; mret false
  else if String.eqb choice "4" then setTokenMetadata;; mret false
  else if String.eqb choice "5" then lockAuthorities;; mret false
  else if String.eqb choice "6" then checkDeploymentStatus;; mret false
  else if String.eqb choice "7" then
    setenv "DRY_RUN" "true";; runAllSteps;; mret false
  else if String.eqb choice "8" then rollback;; mret false
  else if String.eqb choice "9" then mret true
  else mret false.

(** The [while (true)] loop of [grokCopilot], fed the lines the operator
    types; an error thrown by an action leaves the loop, as in the source. *)
Fixpoint grokCopilotMenu (inputs : list string) : M Session :=
  match inputs with
  | [] => mret AwaitingInput
  | choice :: rest =>
      exited ← selectAction choice;
      if (exited : bool) then mret (Exited 0) else grokCopilotMenu rest
  end.

End Deployment.

(** ** Start-up *)

(** The project directory: the files under the script's directory, and the
    number of times [npm install] has been run in it. *)
Record Project := {
  projectFiles : gmap string string;
  npmInstalls : nat
}.

(** What [npm install] writes into the directory: the [node_modules] tree
    and the lock file.  Their text comes from the registry, not from the
    program, and is represented by a marker; an install that fails may
    leave less, which nothing below depends on. *)
Definition NPM_WRITES : list string := ["node_modules"; "package-lock.json"].

Definition npmInstall (files : gmap string string) : gmap string string :=
  foldr (λ file acc, <[file := "(written by npm install)"]> acc) files NPM_WRITES.

(** The keys of [REQUIRED_FILES], in the order [Object.entries] lists them. *)
Definition REQUIRED_FILE_NAMES : list string :=
  [".env.sample"; ".gitignore"; "package.json"; "tsconfig.json"; "README.md"].

(** [Object.entries(REQUIRED_FILES)], the text of each file being given by
    [content]. *)
Definition REQUIRED_FILES (content : string → string) : list (string * string) :=
  (λ file, (file, content file)) <$> REQUIRED_FILE_NAMES.

(** The closure [checkAndCreate] of [checkAndCreateFiles], acting on the
    flag [allFilesPresent] and the directory. *)
Definition checkAndCreate (filePath content : string) (st : bool * gmap string string) :
    bool * gmap string string :=
  if st.2 !! filePath is Some _ then st else (false, <[filePath := content]> st.2).

(** [checkAndCreateFiles], over the entries it is to go through.  When a file
    had to be created [npm install] is run in the directory; whether that
    succeeds or throws, the function returns [false]. *)
Definition checkAndCreateFiles (entries : list (string * string)) (p : Project) :
    bool * Project :=
  let st := foldl (λ st entry, checkAndCreate entry.1 entry.2 st)
              (true, projectFiles p) entries in
  if st.1
  then (true, {| projectFiles := st.2; npmInstalls := npmInstalls p |})
  else (false, {| projectFiles := npmInstall st.2; npmInstalls := S (npmInstalls p) |}).

(** [String.prototype.toLowerCase] on the ASCII letters; no other character
    lowercases to a letter of 'yes'. *)
Definition lowerAscii (c : Ascii.ascii) : Ascii.ascii :=
  let n := Ascii.nat_of_ascii c in
  if Nat.leb 65 n && Nat.leb n 90 then Ascii.ascii_of_nat (n + 32) else c.

Fixpoint toLowerCase (s : string) : string :=
  match s with
  | EmptyString => EmptyString
  | String c rest => String (lowerAscii c) (toLowerCase rest)
  end.

(** [confirmOwnerAddress], given the line the operator types. *)
Definition confirmOwnerAddress (answer : string) : bool :=
  String.eqb (toLowerCase answer) "yes".

Section Startup.

Context (P : Platform).

(** [grokCopilot]: [inputs] are the lines typed at the prompts, the first
    one answering the owner confirmation, and [argv] is [process.argv]. *)
Definition grokCopilot (entries : list (string * string)) (project : Project)
    (argv inputs : list string) : M Session :=
  if negb (checkAndCreateFiles entries project).1 then mret (Exited 0)
  else
    match inputs with
    | [] => mret AwaitingInput
    | answer :: choices =>
        if negb (confirmOwnerAddress answer) then mret (Exited 1)
        else
          valid ← checkEnv P;
          if negb (valid : bool) then mret (Exited 1)
          else if bool_decide ("--all" ∈ argv)
          then runAllSteps P;; checkDeploymentStatus P;; mret (Exited 0)
          else checkDeploymentStatus P;; grokCopilotMenu P choices
    end.

(** [grokCopilot().catch(...)]: an error that escapes ends the process with
    code 1. *)
Definition main (entries : list (string * string)) (project : Project)
    (argv inputs : list string) : M Session :=
  tryCatch (grokCopilot entries project argv inputs) (λ _, mret (Exited 1)).

End Startup.

(** ** Observations on a run *)

(** The payloads POSTed to the relay. *)
Definition posted (tr : list Event) : list Transaction :=
  omap (λ e, match e with EvPost _ _ p => Some p | _ => None end) tr.

(** The transactions handed to the submitter (serialized), dry-run or not. *)
Definition serialized (tr : list Event) : list Transaction :=
  omap (λ e, match e with EvSerialize tx => Some tx | _ => None end) tr.

Definition sleeps (tr : list Event) : list N :=
  omap (λ e, match e with EvSleep ms => Some ms | _ => None end) tr.

(** The recency anchors resolved. *)
Definition anchors (tr : list Event) : list unit :=
  omap (λ e, match e with EvRpc GetLatestBlockhash => Some tt | _ => None end) tr.

Definition posts (tr : list Event) : nat := length (posted tr).

(** Attempts after the first one. *)
Definition retries (tr : list Event) : nat := posts tr - 1.

(** The transactions the token library sent on its own. *)
Definition sent (tr : list Event) : list Transaction :=
  omap (λ e, match e with EvSend tx => Some tx | _ => None end) tr.

(** Calls that leave the machine: RPC requests, relay POSTs and the
    library's own submissions. *)
Definition networkCall (e : Event) : bool :=
  match e with
  | EvRpc _ | EvPost _ _ _ | EvSend _ => true
  | EvSerialize _ | EvSleep _ => false
  end.

(** The message an attempt of the retry loop fails with, if it fails:
    a transport failure, a rejection by the relay, or a confirmation wait
    that rejects. *)
Definition attemptFailure (attempt : nat) (a : Attempt) : option string :=
  match response a with
  | FetchError m => Some m
  | RelayFailure error =>
      Some (orElse error ("Relayer error (attempt " ++ pretty attempt ++ ")"))
  | RelaySuccess _ =>
      match confirmation a with
      | ConfirmError m => Some m
      | ConfirmValue _ => None
      end
  end.

(** What one attempt of the retry loop shows in the trace. *)
Definition attemptEvents (url : string) (authorization : option string)
    (payload : Transaction) (a : Attempt) : list Event :=
  EvPost url authorization payload ::
  match response a with
  | RelaySuccess sig =>
      [EvRpc (ConfirmTransaction sig (default "" (recentBlockhash payload)))]
  | _ => []
  end.

(** The world after one attempt: the script advances, and a confirmed
    execution settles on the ledger. *)
Definition attemptWorld (P : Platform) (payload : Transaction) (w : World) : World :=
  let a := hd unreachable (relayScript w) in
  let w' := setRelayScript (tl (relayScript w)) w in
  match response a, confirmation a with
  | RelaySuccess _, ConfirmValue None => setLedger (settle P payload (ledger w')) w'
  | _, _ => w'
  end.

(** The relay's answer to the [k]-th POST made from [w], counting from 0. *)
Definition scripted (w : World) (k : nat) : Attempt := nth k (relayScript w) unreachable.

(** What a run may show when nothing is really submitted: reads through the
    connection and serializations, but no POST, no confirmation wait and no
    retry delay. *)
Definition dryEvent (e : Event) : Prop :=
  match e with
  | EvRpc (ConfirmTransaction _ _) | EvPost _ _ _ | EvSleep _ | EvSend _ => False
  | EvRpc _ | EvSerialize _ => True
  end.

(** The events of the relay submitter itself: resolving the anchor,
    serializing, POSTing, waiting for confirmation, sleeping. *)
Definition submitterEvent (e : Event) : Prop :=
  match e with
  | EvRpc GetLatestBlockhash | EvRpc (ConfirmTransaction _ _)
  | EvSerialize _ | EvPost _ _ _ | EvSleep _ => True
  | EvRpc _ | EvSend _ => False
  end.

(** Events that hand nothing to the relay submitter. *)
Definition quietEvent (e : Event) : Prop :=
  match e with
  | EvSerialize _ | EvPost _ _ _ => False
  | EvRpc _ | EvSleep _ | EvSend _ => True
  end.

(** The DAO address, when one is configured, is well-formed. *)
Definition DaoWellFormed (P : Platform) (w : World) : Prop :=
  truthy (env w !! "DAO_PUBKEY") = true →
  validKey P (default "" (env w !! "DAO_PUBKEY")) = true.

(** [process.env.DAO_PUBKEY ? new PublicKey(process.env.DAO_PUBKEY) : null] *)
Definition daoPubkeyOf (w : World) : option string :=
  if truthy (env w !! "DAO_PUBKEY") then env w !! "DAO_PUBKEY" else None.

(** The authority [lockAuthorities] aims at in [w], for a given treasury. *)
Definition targetOf (w : World) (treasury : string) : option string :=
  targetAuthority (orElse (env w !! "AUTHORITY_MODE") "null") (daoPubkeyOf w) treasury.

(** Does the transaction change the given authority slot? *)
Definition touchesSlot (slot : string) (tx : Transaction) : bool :=
  existsb (λ i, match i with
                | SetAuthority _ _ authorityType _ => String.eqb authorityType slot
                | _ => false
                end) (instructions tx).

(** Everything [checkEnv] asks for apart from the authority mode and the DAO
    address: the required settings are present, the relayer key is
    well-formed, the treasury is the owner address, and the RPC endpoint is
    well-formed and answers. *)
Definition OtherwiseValid (P : Platform) (w : World) : Prop :=
  (∀ key, key ∈ required → truthy (env w !! key) = true) ∧
  validEndpoint P (default "" (env w !! "RPC_URL")) = true ∧
  validKey P (default "" (env w !! "RELAYER_PUBKEY")) = true ∧
  env w !! "TREASURY_PUBKEY" = Some OWNER_ADDRESS ∧
  validKey P OWNER_ADDRESS = true ∧
  rpcReachable w = true.

(** [m] preserves the invariant [I] of the world, shows only events in [T],
    and returns only values in [R]. *)
Definition keeps {A} (I : World → Prop) (T : Event → Prop) (R : A → Prop) (m : M A) : Prop :=
  ∀ w, I w →
    I (after (m w)) ∧ Forall T (trace (m w)) ∧ ∀ a, result (m w) = Return a → R a.

Definition anything {A} : A → Prop := λ _, True.

(** The identity [loadOrCreateUserAuth] returns in [w], and the world it
    leaves: a missing [user_auth.json] is written with a fresh keypair. *)
Definition userAuthOf (P : Platform) (w : World) : Keypair :=
  default (keypairOf P (entropy w)) (userAuthJson (files w)).

Definition afterUserAuth (P : Platform) (w : World) : World :=
  setFiles {| mintJson := mintJson (files w); userAuthJson := Some (userAuthOf P w) |}
    (setEntropy (if userAuthJson (files w) is Some _ then entropy w else S (entropy w)) w).

(** The settings every step reads are present and well-formed, and the RPC
    endpoint answers. *)
Definition Configured (P : Platform) (w : World) (relayer treasury : PublicKey) : Prop :=
  (∃ url, env w !! "RPC_URL" = Some url ∧ validEndpoint P url = true) ∧
  (env w !! "RELAYER_PUBKEY" = Some relayer ∧ validKey P relayer = true) ∧
  (env w !! "TREASURY_PUBKEY" = Some treasury ∧ validKey P treasury = true) ∧
  rpcReachable w = true.

(** A run preceded by the events [t]. *)
Definition prefixed {A} (t : list Event) (x : Completion A * World * list Event) :
    Completion A * World * list Event :=
  (result x, after x, (t ++ trace x)%list).

(** A property of the environment and the cache directory, as a property of
    the world. *)
Definition onCache (J : gmap string string → Files → Prop) (w : World) : Prop :=
  J (env w) (files w).

Definition anyEvent (e : Event) : Prop := True.

(** The settings [checkEnv] inspects before it goes to the network: the
    required ones are present, the keys are well-formed, the treasury is
    the owner address and the authority mode is one of the three. *)
Definition SettingsAccepted (P : Platform) (w : World) : Prop :=
  (∀ key, key ∈ required → truthy (env w !! key) = true) ∧
  validKey P (default "" (env w !! "RELAYER_PUBKEY")) = true ∧
  env w !! "TREASURY_PUBKEY" = Some OWNER_ADDRESS ∧
  validKey P OWNER_ADDRESS = true ∧
  DaoWellFormed P w ∧
  orElse (env w !! "AUTHORITY_MODE") "" ∈ authorityModes.

(** There is no checkpoint. *)
Definition noCheckpoint (w : World) : Prop := mintJson (files w) = None.

(** Reads through the connection: the only events of a run that never
    reaches the submitter. *)
Definition readEvent (e : Event) : Prop :=
  match e with
  | EvRpc (ConfirmTransaction _ _) => False
  | EvRpc _ => True
  | EvSerialize _ | EvPost _ _ _ | EvSleep _ | EvSend _ => False
  end.

(** A world whose RPC endpoint does not answer and that agrees with [w0] on
    the environment, the checkpoint, the ledger and the relay. *)
Definition offlineLike (w0 w : World) : Prop :=
  rpcReachable w = false ∧ env w = env w0 ∧
  mintJson (files w) = mintJson (files w0) ∧
  ledger w = ledger w0 ∧ relayScript w = relayScript w0.

(** A run from [w] that threw having only read: nothing was serialized or
    POSTed, and the checkpoint, the ledger and the relay are as in [w]. *)
Definition stoppedReading {A} (w : World) (x : Completion A * World * list Event) : Prop :=
  (∃ e, result x = Throw e) ∧
  Forall readEvent (trace x) ∧
  serialized (trace x) = [] ∧ posted (trace x) = [] ∧
  mintJson (files (after x)) = mintJson (files w) ∧
  ledger (after x) = ledger w ∧ relayScript (after x) = relayScript w.

(** What [checkDeploymentStatus] needs to get as far as the ledger: a
    well-formed endpoint and treasury key, and a well-formed checkpoint if
    there is one.  Nothing is asked of the ledger or of the endpoint's
    availability. *)
Definition StatusInputs (P : Platform) (w : World) : Prop :=
  (∃ url, env w !! "RPC_URL" = Some url ∧ validEndpoint P url = true) ∧
  (∃ t, env w !! "TREASURY_PUBKEY" = Some t ∧ validKey P t = true) ∧
  (∀ m, mintJson (files w) = Some m → validKey P m = true).

(** The three checks of the start-up: the required files are in place, the
    operator has confirmed the owner address, and the environment check has
    passed. *)
Definition startupPassed (P : Platform) (entries : list (string * string)) (project : Project)
    (inputs : list string) (w : World) : Prop :=
  (checkAndCreateFiles entries project).1 = true ∧
  (∃ answer rest, inputs = answer :: rest ∧ confirmOwnerAddress answer = true) ∧
  result (checkEnv P w) = Return true.

(** The choices the menu acts on. *)
Definition menuChoices : list string := ["1"; "2"; "3"; "4"; "5"; "6"; "7"; "8"; "9"].

(** The answers that confirm the owner address. *)
Definition confirmations : list string :=
  ["yes"; "yeS"; "yEs"; "yES"; "Yes"; "YeS"; "YEs"; "YES"].

(** Requests through the connection and nothing else: no payload handed to
    the relay submitter, and no transaction sent by the token library. *)
Definition rpcEvent (e : Event) : Prop :=
  match e with
  | EvRpc _ => True
  | EvSerialize _ | EvPost _ _ _ | EvSleep _ | EvSend _ => False
  end.

(** The transaction the token library sends for [createMint] when
    Create-Asset runs in [w] without a checkpoint: the creation of a fresh
    asset, paid and signed by the deployer identity. *)
Definition creationOf (P : Platform) (w : World) : Transaction :=
  let userAuth := userAuthOf P w in
  let mintKeypair := keypairOf P (entropy (afterUserAuth P w)) in
  {| feePayer := Some (publicKey userAuth);
     recentBlockhash := Some (latestBlockhash w);
     instructions := [CreateMint (publicKey userAuth) (publicKey userAuth)
                        (publicKey userAuth) 9 (publicKey mintKeypair)];
     signatures := [publicKey userAuth; publicKey mintKeypair] |}.

(** Does the transaction mint? *)
Definition mints (tx : Transaction) : bool :=
  existsb (λ i, match i with MintTo _ _ _ _ => true | _ => false end) (instructions tx).

(** The events of a run that mints nothing and hands nothing to the relay
    submitter. *)
Definition mintFree (e : Event) : Prop :=
  match e with
  | EvRpc _ => True
  | EvSend tx => mints tx = false
  | EvSerialize _ | EvPost _ _ _ | EvSleep _ => False
  end.

(** The transaction the token library sends for
    [getOrCreateAssociatedTokenAccount] when Mint-Supply runs in [w] and the
    treasury's holding account is missing. *)
Definition accountCreationOf (P : Platform) (w : World) (m treasury : PublicKey) :
    Transaction :=
  {| feePayer := Some (publicKey (userAuthOf P w));
     recentBlockhash := Some (latestBlockhash w);
     instructions := [CreateAssociatedTokenAccount (publicKey (userAuthOf P w)) m treasury];
     signatures := [publicKey (userAuthOf P w)] |}.

(** The identity file holds the keypair [u]. *)
Definition holds (u : Keypair) (w : World) : Prop := userAuthJson (files w) = Some u.

(** The events of a run that stays off the relay: requests through the
    connection, and transactions the token library sends itself with the
    deployer identity [u] paying the fee and signing first. *)
Definition paidByDeployer (u : Keypair) (e : Event) : Prop :=
  match e with
  | EvRpc _ => True
  | EvSend tx => feePayer tx = Some (publicKey u) ∧ head (signatures tx) = Some (publicKey u)
  | EvSerialize _ | EvPost _ _ _ | EvSleep _ => False
  end.

(** The world with [DRY_RUN] set, as choice 7 of the menu leaves it. *)
Definition dryRunSelected (w : World) : World :=
  setEnv (<["DRY_RUN" := "true"]> (env w)) w.

(** ** Sample worlds

    A concrete platform and concrete worlds, used to run the program. *)

Definition sampleAddress (seeds : list Seed) (program : PublicKey) : PublicKey :=
  foldr (λ seed acc, match seed with
                     | SeedText t => t ++ "/" ++ acc
                     | SeedKey k => k ++ "/" ++ acc
                     end) program seeds.

(** What an instruction of the token library does to the sample ledger. *)
Definition sampleSettle (l : gmap string Account) (i : Instruction) : gmap string Account :=
  match i with
  | CreateMint _ mintAuthority freezeAuthority _ mint =>
      <[mint := MintAccount (Some mintAuthority) (Some freezeAuthority)]> l
  | CreateAssociatedTokenAccount _ mint owner =>
      <[sampleAddress [SeedKey owner; SeedKey TOKEN_2022_PROGRAM_ID; SeedKey mint]
          ASSOCIATED_TOKEN_PROGRAM_ID := TokenAccount 0]> l
  | MintTo _ destination _ amount =>
      match l !! destination with
      | Some (TokenAccount n) => <[destination := TokenAccount (n + amount)]> l
      | _ => l
      end
  | SetAuthority mint _ authorityType newAuthority =>
      match l !! mint with
      | Some (MintAccount ma fa) =>
          if String.eqb authorityType "MintTokens"
          then <[mint := MintAccount newAuthority fa]> l
          else <[mint := MintAccount ma newAuthority]> l
      | _ => l
      end
  | Unparsed _ => l
  end.

Definition samplePlatform : Platform :=
  {| validKey := λ s, negb (String.eqb s "");
     validEndpoint := λ s, String.prefix "http:" s || String.prefix "https:" s;
     findProgramAddressSync := sampleAddress;
     keypairOf := λ n, {| publicKey := "Generated" ++ pretty n |};
     onCurve := λ _, true;
     settle := λ tx l, foldl sampleSettle l (instructions tx);
     broadcast := λ _ _, Return "SentSig";
     tokenSupply := λ _ _, {| amount := 0; decimals := 9 |} |}.

Definition sampleEnv : gmap string string :=
  <["RPC_URL" := "https://api.mainnet-beta.solana.com"]>
  (<["RELAYER_URL" := "https://relayer.example/relay/sendRawTransaction"]>
  (<["RELAYER_PUBKEY" := "RelayerFeePayer"]>
  (<["TREASURY_PUBKEY" := OWNER_ADDRESS]>
  (<["AUTHORITY_MODE" := "null"]> ∅)))).

Definition userAuthKey : Keypair := {| publicKey := "UserAuth" |}.

Definition settled (sig : string) : Attempt :=
  {| response := RelaySuccess sig; confirmation := ConfirmValue None |}.

(** The relay answers with a deterministic on-chain rejection. *)
Definition ledgerRejected : Attempt :=
  {| response := RelayFailure (Some "Transaction simulation failed: custom program error: 0x4");
     confirmation := ConfirmValue None |}.

(** The relay accepts, and the confirmation wait runs past the validity
    window. *)
Definition expired (sig : string) : Attempt :=
  {| response := RelaySuccess sig;
     confirmation := ConfirmError "block height exceeded" |}.

Definition sampleWorld (e : gmap string string) (f : Files) (l : gmap string Account)
    (script : list Attempt) : World :=
  {| env := e; files := f; ledger := l; latestBlockhash := "Blockhash1";
     rpcReachable := true; relayScript := script; entropy := 0 |}.

Definition dryRunEnv : gmap string string := <["DRY_RUN" := "true"]> sampleEnv.

(** 'dao' mode without a DAO address. *)
Definition daoEnv : gmap string string := <["AUTHORITY_MODE" := "dao"]> sampleEnv.

Definition noFiles : Files := {| mintJson := None; userAuthJson := None |}.

Definition cached : Files :=
  {| mintJson := Some "Mint1"; userAuthJson := Some userAuthKey |}.

Definition sampleAta : string :=
  findAssociatedTokenAddress samplePlatform OWNER_ADDRESS "Mint1".

(** The asset exists and the deployer still holds both authorities; nothing
    has been minted. *)
Definition createdLedger : gmap string Account :=
  <["Mint1" := MintAccount (Some "UserAuth") (Some "UserAuth")]> ∅.

(** The supply sits in the treasury's holding account. *)
Definition mintedLedger : gmap string Account :=
  <[sampleAta := TokenAccount supply]> createdLedger.

(** Both authorities have been disabled. *)
Definition lockedLedger : gmap string Account :=
  <["Mint1" := MintAccount None None]> mintedLedger.

Definition sampleTx : Transaction :=
  {| feePayer := None; recentBlockhash := None;
     instructions := [MintTo "Mint1" "Ata1" "UserAuth" supply];
     signatures := ["UserAuth"] |}.

(** ** Observations distribute over traces *)

Lemma posted_app a b : posted (a ++ b)%list = (posted a ++ posted b)%list.
Proof. apply omap_app. Qed.

Lemma serialized_app a b : serialized (a ++ b)%list = (serialized a ++ serialized b)%list.
Proof. apply omap_app. Qed.

Lemma sleeps_app a b : sleeps (a ++ b)%list = (sleeps a ++ sleeps b)%list.
Proof. apply omap_app. Qed.

Lemma anchors_app a b : anchors (a ++ b)%list = (anchors a ++ anchors b)%list.
Proof. apply omap_app. Qed.

Lemma posted_cons e tr :
  posted (e :: tr) = match e with EvPost _ _ p => p :: posted tr | _ => posted tr end.
Proof. by destruct e. Qed.

Lemma serialized_cons e tr :
  serialized (e :: tr) =
    match e with EvSerialize tx => tx :: serialized tr | _ => serialized tr end.
Proof. by destruct e. Qed.

Lemma sleeps_cons e tr :
  sleeps (e :: tr) = match e with EvSleep ms => ms :: sleeps tr | _ => sleeps tr end.
Proof. by destruct e. Qed.

Lemma anchors_cons e tr :
  anchors (e :: tr) =
    match e with EvRpc GetLatestBlockhash => tt :: anchors tr | _ => anchors tr end.
Proof. destruct e as [[]| | | |]; done. Qed.

Lemma sent_app a b : sent (a ++ b)%list = (sent a ++ sent b)%list.
Proof. apply omap_app. Qed.

Lemma sent_cons e tr :
  sent (e :: tr) = match e with EvSend tx => tx :: sent tr | _ => sent tr end.
Proof. by destruct e. Qed.

Lemma sent_nil : sent [] = [].
Proof. done. Qed.

Lemma posted_nil : posted [] = [].
Proof. done. Qed.

Lemma serialized_nil : serialized [] = [].
Proof. done. Qed.

Lemma sleeps_nil : sleeps [] = [].
Proof. done. Qed.

Lemma anchors_nil : anchors [] = [].
Proof. done. Qed.

Section RelayTheory.

Context (P : Platform).

Lemma relayAttempts_success r k u auth p w sig :
  response (hd unreachable (relayScript w)) = RelaySuccess sig →
  attemptFailure k (hd unreachable (relayScript w)) = None →
  relayAttempts P (S r) k (Some u) auth p w =
    (Return sig, attemptWorld P p w, attemptEvents u auth p (hd unreachable (relayScript w))).
Proof.
  intros Hr Hf. unfold attemptFailure in Hf. rewrite Hr in Hf.
  unfold attemptWorld, attemptEvents. simpl. unfold tryCatch, mbind, M_bind, bind, fetch.
  rewrite Hr. simpl. rewrite Hr.
  destruct (confirmation _) as [m|[err|]]; try discriminate; reflexivity.
Qed.

Lemma relayAttempts_failure r k u auth p w e :
  attemptFailure k (hd unreachable (relayScript w)) = Some e →
  relayAttempts P (S r) k (Some u) auth p w =
    if Nat.eqb k 3
    then (Throw ("Relayer failed after 3 attempts: " ++ e), attemptWorld P p w,
          attemptEvents u auth p (hd unreachable (relayScript w)))
    else let '(res, w', tr) := relayAttempts P r (S k) (Some u) auth p (attemptWorld P p w) in
         (res, w', (attemptEvents u auth p (hd unreachable (relayScript w))
                    ++ EvSleep 1000 :: tr)%list).
Proof.
  intros Hf. unfold attemptFailure in Hf.
  unfold attemptWorld, attemptEvents. simpl. unfold tryCatch, mbind, M_bind, bind, fetch.
  destruct (response _) as [m|err|sig] eqn:Hr; simpl.
  - injection Hf as <-. destruct (Nat.eqb k 3); simpl; [reflexivity|].
    destruct (relayAttempts _ _ _ _ _ _ _) as [[res w'] tr]. reflexivity.
  - rewrite Hr. simpl. injection Hf as <-. destruct (Nat.eqb k 3); simpl; [reflexivity|].
    destruct (relayAttempts _ _ _ _ _ _ _) as [[res w'] tr]. reflexivity.
  - rewrite Hr. simpl. destruct (confirmation _) as [m|[err|]]; try discriminate.
    injection Hf as <-. simpl. destruct (Nat.eqb k 3); simpl; [reflexivity|].
    destruct (relayAttempts _ _ _ _ _ _ _) as [[res w'] tr]. reflexivity.
Qed.

Lemma scripted_hd w : hd unreachable (relayScript w) = scripted w 0.
Proof. unfold scripted. by destruct (relayScript w). Qed.

Lemma scripted_attemptWorld p w k : scripted (attemptWorld P p w) k = scripted w (S k).
Proof.
  unfold scripted, attemptWorld.
  assert (H : ∀ w', relayScript w' = tl (relayScript w) →
                   nth k (relayScript w') unreachable = nth (S k) (relayScript w) unreachable).
  { intros w' ->. destruct (relayScript w); [by destruct k|done]. }
  destruct (response _); try (by apply H).
  destruct (confirmation _) as [|[|]]; by apply H.
Qed.

Lemma attemptWorld_frame p w :
  env (attemptWorld P p w) = env w ∧ files (attemptWorld P p w) = files w ∧
  entropy (attemptWorld P p w) = entropy w ∧
  rpcReachable (attemptWorld P p w) = rpcReachable w ∧
  latestBlockhash (attemptWorld P p w) = latestBlockhash w.
Proof.
  unfold attemptWorld. destruct (response _); try done.
  by destruct (confirmation _) as [|[|]].
Qed.

Lemma posted_attemptEvents u auth p a : posted (attemptEvents u auth p a) = [p].
Proof. unfold attemptEvents. by destruct (response a). Qed.

Lemma sleeps_attemptEvents u auth p a : sleeps (attemptEvents u auth p a) = [].
Proof. unfold attemptEvents. by destruct (response a). Qed.

Lemma anchors_attemptEvents u auth p a : anchors (attemptEvents u auth p a) = [].
Proof. unfold attemptEvents. by destruct (response a). Qed.

Lemma serialized_attemptEvents u auth p a : serialized (attemptEvents u auth p a) = [].
Proof. unfold attemptEvents. by destruct (response a). Qed.

(** The loop without a URL: [fetch] throws before anything is sent. *)
Lemma relayAttempts_no_url r k auth p w :
  let x := relayAttempts P r k None auth p w in
  after x = w ∧ posted (trace x) = [] ∧ anchors (trace x) = [] ∧
  serialized (trace x) = [] ∧ Forall (λ ms, ms = 1000%N) (sleeps (trace x)) ∧
  ∃ e, result x = Throw e.
Proof.
  revert k. induction r as [|r IH]; intros k; simpl.
  - repeat split; eauto.
  - unfold tryCatch, mbind, M_bind, bind. simpl.
    destruct (Nat.eqb k 3); simpl.
    + repeat split; eauto.
    + specialize (IH (S k)). simpl in IH.
      destruct (relayAttempts P r (S k) None auth p w) as [[res w'] tr]. simpl in *.
      destruct IH as (? & ? & ? & ? & ? & ?).
      unfold posted, anchors, serialized, sleeps in *. simpl. repeat split; eauto.
Qed.

(** What any run of the loop may show: at most [r] POSTs, all of the one
    payload, separated by one-second sleeps, and no anchor resolution. *)
Lemma relayAttempts_trace r k url auth p w :
  let x := relayAttempts P r k url auth p w in
  Forall (λ q, q = p) (posted (trace x)) ∧ (length (posted (trace x)) ≤ r)%nat ∧
  anchors (trace x) = [] ∧ serialized (trace x) = [] ∧
  Forall (λ ms, ms = 1000%N) (sleeps (trace x)).
Proof.
  destruct url as [u|].
  2:{ pose proof (relayAttempts_no_url r k auth p w) as H. simpl in *.
      destruct H as (_ & -> & -> & -> & ? & _). simpl. repeat split; auto. lia. }
  revert k w. induction r as [|r IH]; intros k w.
  - simpl. repeat split; auto.
  - assert (Hobs : ∀ res w' tr,
      Forall (λ q, q = p) (posted tr) ∧ (length (posted tr) ≤ r)%nat ∧
      anchors tr = [] ∧ serialized tr = [] ∧ Forall (λ ms, ms = 1000%N) (sleeps tr) →
      let x : Completion string * World * list Event :=
        (res, w', (attemptEvents u auth p (hd unreachable (relayScript w))
                   ++ EvSleep 1000 :: tr)%list) in
      Forall (λ q, q = p) (posted (trace x)) ∧ (length (posted (trace x)) ≤ S r)%nat ∧
      anchors (trace x) = [] ∧ serialized (trace x) = [] ∧
      Forall (λ ms, ms = 1000%N) (sleeps (trace x))).
    { intros res w' tr (? & ? & ? & ? & ?). unfold trace. cbn [snd].
      rewrite posted_app, anchors_app, serialized_app, sleeps_app.
      rewrite posted_cons, anchors_cons, serialized_cons, sleeps_cons.
      rewrite posted_attemptEvents, anchors_attemptEvents,
        serialized_attemptEvents, sleeps_attemptEvents. cbn [app length].
      repeat split; auto. lia. }
    assert (Hone : ∀ (res : Completion string) (w' : World),
      let x := (res, w', attemptEvents u auth p (hd unreachable (relayScript w))) in
      Forall (λ q, q = p) (posted (trace x)) ∧ (length (posted (trace x)) ≤ S r)%nat ∧
      anchors (trace x) = [] ∧ serialized (trace x) = [] ∧
      Forall (λ ms, ms = 1000%N) (sleeps (trace x))).
    { intros res w'. unfold trace. cbn [snd].
      rewrite posted_attemptEvents, anchors_attemptEvents,
        serialized_attemptEvents, sleeps_attemptEvents. simpl.
      repeat split; auto. lia. }
    destruct (attemptFailure k (hd unreachable (relayScript w))) as [e|] eqn:Hf.
    + rewrite (relayAttempts_failure _ _ _ _ _ _ _ Hf).
      destruct (Nat.eqb k 3); [apply Hone|].
      specialize (IH (S k) (attemptWorld P p w)). cbv zeta in IH.
      destruct (relayAttempts P r (S k) (Some u) auth p _) as [[res w'] tr].
      apply Hobs, IH.
    + assert (∃ sig, response (hd unreachable (relayScript w)) = RelaySuccess sig)
        as [sig Hr].
      { unfold attemptFailure in Hf. destruct (response _); try discriminate. eauto. }
      rewrite (relayAttempts_success _ _ _ _ _ _ _ Hr Hf). apply Hone.
Qed.

(** The loop touches the relay's script and the ledger only. *)
Lemma relayAttempts_frame r k url auth p w :
  let w' := after (relayAttempts P r k url auth p w) in
  env w' = env w ∧ files w' = files w ∧ entropy w' = entropy w ∧
  rpcReachable w' = rpcReachable w ∧ latestBlockhash w' = latestBlockhash w.
Proof.
  destruct url as [u|].
  2:{ pose proof (relayAttempts_no_url r k auth p w) as H. simpl in *.
      destruct H as (-> & _). done. }
  revert k w. induction r as [|r IH]; intros k w.
  - done.
  - pose proof (attemptWorld_frame p w) as (He & Hfi & Hen & Hrp & Hlb).
    destruct (attemptFailure k (hd unreachable (relayScript w))) as [e|] eqn:Hf.
    + rewrite (relayAttempts_failure _ _ _ _ _ _ _ Hf).
      destruct (Nat.eqb k 3); [done|].
      specialize (IH (S k) (attemptWorld P p w)). cbv zeta in IH.
      destruct (relayAttempts P r (S k) (Some u) auth p _) as [[res w'] tr].
      unfold after in *. cbn [fst snd] in *. destruct IH as (-> & -> & -> & -> & ->). done.
    + assert (∃ sig, response (hd unreachable (relayScript w)) = RelaySuccess sig)
        as [sig Hr].
      { unfold attemptFailure in Hf. destruct (response _); try discriminate. eauto. }
      rewrite (relayAttempts_success _ _ _ _ _ _ _ Hr Hf). done.
Qed.

(** The three shapes of a call of the submitter. *)
Lemma sendViaRelayer_offline pk url tx apiKey w :
  rpcReachable w = false →
  sendViaRelayer P pk url tx apiKey w = (Throw "fetch failed", w, [EvRpc GetLatestBlockhash]).
Proof.
  intros H. unfold sendViaRelayer, getLatestBlockhash, rpc, mbind, M_bind, bind.
  by rewrite H.
Qed.

Lemma sendViaRelayer_dry pk url tx apiKey w :
  rpcReachable w = true → env w !! "DRY_RUN" = Some "true" →
  sendViaRelayer P pk url tx apiKey w =
    (Return DRY_RUN_SIGNATURE, w,
     [EvRpc GetLatestBlockhash; EvSerialize (withAnchor tx pk (latestBlockhash w))]).
Proof.
  intros H Hd. unfold sendViaRelayer, getLatestBlockhash, rpc, getenv, emit, mbind, M_bind, bind.
  rewrite H. simpl. rewrite Hd. by rewrite bool_decide_eq_true_2.
Qed.

Lemma sendViaRelayer_live pk url tx apiKey w :
  rpcReachable w = true → env w !! "DRY_RUN" ≠ Some "true" →
  sendViaRelayer P pk url tx apiKey w =
    let payload := withAnchor tx pk (latestBlockhash w) in
    let '(res, w', tr) :=
      relayAttempts P 3 1 url (authorizationHeader apiKey) payload w in
    (res, w', EvRpc GetLatestBlockhash :: EvSerialize payload :: tr).
Proof.
  intros H Hd. unfold sendViaRelayer, getLatestBlockhash, rpc, getenv, emit, mbind, M_bind, bind.
  rewrite H. cbn -[relayAttempts]. rewrite bool_decide_eq_false_2 by done.
  by destruct (relayAttempts _ _ _ _ _ _ _) as [[res w'] tr].
Qed.

(** The four ways the three attempts can go. *)
Lemma relayAttempts_first r u auth p w sig :
  response (scripted w 0) = RelaySuccess sig →
  attemptFailure 1 (scripted w 0) = None →
  relayAttempts P (S r) 1 (Some u) auth p w =
    (Return sig, attemptWorld P p w, attemptEvents u auth p (scripted w 0)).
Proof. rewrite <- scripted_hd. apply relayAttempts_success. Qed.

Lemma relayAttempts_second r u auth p w e1 sig :
  attemptFailure 1 (scripted w 0) = Some e1 →
  response (scripted w 1) = RelaySuccess sig →
  attemptFailure 2 (scripted w 1) = None →
  relayAttempts P (S (S r)) 1 (Some u) auth p w =
    (Return sig, attemptWorld P p (attemptWorld P p w),
     (attemptEvents u auth p (scripted w 0) ++ EvSleep 1000 ::
      attemptEvents u auth p (scripted w 1))%list).
Proof.
  intros H1 Hr H2. rewrite <- scripted_hd in H1.
  rewrite (relayAttempts_failure _ _ _ _ _ _ _ H1). cbn [Nat.eqb].
  rewrite <- (scripted_attemptWorld p), <- scripted_hd in Hr, H2.
  rewrite (relayAttempts_success _ _ _ _ _ _ _ Hr H2).
  by rewrite !scripted_hd, scripted_attemptWorld.
Qed.

Lemma relayAttempts_third r u auth p w e1 e2 sig :
  attemptFailure 1 (scripted w 0) = Some e1 →
  attemptFailure 2 (scripted w 1) = Some e2 →
  response (scripted w 2) = RelaySuccess sig →
  attemptFailure 3 (scripted w 2) = None →
  relayAttempts P (S (S (S r))) 1 (Some u) auth p w =
    (Return sig, attemptWorld P p (attemptWorld P p (attemptWorld P p w)),
     (attemptEvents u auth p (scripted w 0) ++ EvSleep 1000 ::
      attemptEvents u auth p (scripted w 1) ++ EvSleep 1000 ::
      attemptEvents u auth p (scripted w 2))%list).
Proof.
  intros H1 H2 Hr H3. rewrite <- scripted_hd in H1.
  rewrite (relayAttempts_failure _ _ _ _ _ _ _ H1). cbn [Nat.eqb].
  rewrite <- (scripted_attemptWorld p), <- scripted_hd in H2.
  rewrite (relayAttempts_failure _ _ _ _ _ _ _ H2). cbn [Nat.eqb].
  rewrite <- !(scripted_attemptWorld p), <- scripted_hd in Hr, H3.
  rewrite (relayAttempts_success _ _ _ _ _ _ _ Hr H3).
  by rewrite !scripted_hd, !scripted_attemptWorld.
Qed.

Lemma relayAttempts_exhausted r u auth p w e1 e2 e3 :
  attemptFailure 1 (scripted w 0) = Some e1 →
  attemptFailure 2 (scripted w 1) = Some e2 →
  attemptFailure 3 (scripted w 2) = Some e3 →
  relayAttempts P (S (S (S r))) 1 (Some u) auth p w =
    (Throw ("Relayer failed after 3 attempts: " ++ e3),
     attemptWorld P p (attemptWorld P p (attemptWorld P p w)),
     (attemptEvents u auth p (scripted w 0) ++ EvSleep 1000 ::
      attemptEvents u auth p (scripted w 1) ++ EvSleep 1000 ::
      attemptEvents u auth p (scripted w 2))%list).
Proof.
  intros H1 H2 H3. rewrite <- scripted_hd in H1.
  rewrite (relayAttempts_failure _ _ _ _ _ _ _ H1). cbn [Nat.eqb].
  rewrite <- (scripted_attemptWorld p), <- scripted_hd in H2.
  rewrite (relayAttempts_failure _ _ _ _ _ _ _ H2). cbn [Nat.eqb].
  rewrite <- !(scripted_attemptWorld p), <- scripted_hd in H3.
  rewrite (relayAttempts_failure _ _ _ _ _ _ _ H3). cbn [Nat.eqb].
  by rewrite !scripted_hd, !scripted_attemptWorld.
Qed.

Lemma relayAttempts_head r k u auth p w :
  ∃ rest, trace (relayAttempts P (S r) k (Some u) auth p w) = EvPost u auth p :: rest.
Proof.
  destruct (attemptFailure k (hd unreachable (relayScript w))) as [e|] eqn:Hf.
  - rewrite (relayAttempts_failure _ _ _ _ _ _ _ Hf). destruct (Nat.eqb k 3).
    + unfold attemptEvents, trace. cbn [snd]. eauto.
    + destruct (relayAttempts P r (S k) _ _ _ _) as [[res w'] tr].
      unfold attemptEvents, trace. cbn [snd app]. eauto.
  - assert (∃ sig, response (hd unreachable (relayScript w)) = RelaySuccess sig)
      as [sig Hr].
    { unfold attemptFailure in Hf. destruct (response _); try discriminate. eauto. }
    rewrite (relayAttempts_success _ _ _ _ _ _ _ Hr Hf).
    unfold attemptEvents, trace. cbn [snd]. eauto.
Qed.

Lemma attemptFailure_None k a :
  attemptFailure k a = None → ∃ sig, response a = RelaySuccess sig.
Proof. unfold attemptFailure. destruct (response a); try discriminate. eauto. Qed.

End RelayTheory.

Create Rewrite HintDb observe.

#[global] Hint Rewrite posted_app serialized_app sleeps_app anchors_app
  posted_cons serialized_cons sleeps_cons anchors_cons
  posted_nil serialized_nil sleeps_nil anchors_nil
  posted_attemptEvents serialized_attemptEvents sleeps_attemptEvents
  anchors_attemptEvents : observe.

Ltac observe :=
  unfold retries; unfold posts; unfold result, after, trace; cbn [fst snd];
  repeat (autorewrite with observe; cbn beta iota; cbn [app length Nat.sub]).







(** ** A small logic of invariants *)

Section Keeps.

Context (I : World → Prop) (T : Event → Prop).

Lemma keeps_ret {A} (R : A → Prop) (a : A) : R a → keeps I T R (mret a).
Proof. intros Ha w Hw. repeat split; auto. intros a' [= <-]. done. Qed.

Lemma keeps_throw {A} (R : A → Prop) e : keeps I T R (throw e).
Proof. intros w Hw. repeat split; auto. intros a' [=]. Qed.

Lemma keeps_bind {A B} (R1 : A → Prop) (R : B → Prop) (m : M A) (k : A → M B) :
  keeps I T R1 m → (∀ a, R1 a → keeps I T R (k a)) → keeps I T R (m ≫= k).
Proof.
  intros Hm Hk w Hw. specialize (Hm w Hw).
  unfold mbind, M_bind, bind, after, trace, result in *.
  destruct (m w) as [[[a|e] w1] t1]; cbn [fst snd] in *.
  - destruct Hm as (Hw1 & Ht1 & Ha). specialize (Hk a (Ha a eq_refl) w1 Hw1).
    unfold after, trace, result in Hk.
    destruct (k a w1) as [[r w2] t2]. cbn [fst snd] in *.
    destruct Hk as (? & ? & ?). repeat split; auto. by apply Forall_app.
  - destruct Hm as (? & ? & _). repeat split; auto. intros a [=].
Qed.

Lemma keeps_tryCatch {A} (R : A → Prop) (body : M A) (handler : string → M A) :
  keeps I T R body → (∀ e, keeps I T R (handler e)) → keeps I T R (tryCatch body handler).
Proof.
  intros Hm Hk w Hw. specialize (Hm w Hw).
  unfold tryCatch, after, trace, result in *.
  destruct (body w) as [[[a|e] w1] t1]; cbn [fst snd] in *.
  - done.
  - destruct Hm as (Hw1 & Ht1 & _). specialize (Hk e w1 Hw1).
    unfold after, trace, result in Hk.
    destruct (handler e w1) as [[r w2] t2]. cbn [fst snd] in *.
    destruct Hk as (? & ? & ?). repeat split; auto. by apply Forall_app.
Qed.

Lemma keeps_weaken {A} (R R' : A → Prop) (m : M A) :
  keeps I T R m → (∀ a, R a → R' a) → keeps I T R' m.
Proof.
  intros Hm HR w Hw. destruct (Hm w Hw) as (? & ? & ?). repeat split; auto.
Qed.

(** A computation that only looks at the world. *)
Lemma keeps_read {A} (R : A → Prop) (f : World → Completion A) :
  (∀ w a, I w → f w = Return a → R a) → keeps I T R (λ w, (f w, w, [])).
Proof. intros Hf w Hw. repeat split; auto. intros a Ha. by eapply Hf. Qed.

Lemma keeps_getenv key : keeps I T anything (getenv key).
Proof. by apply (keeps_read anything (λ w, Return (env w !! key))). Qed.

Lemma keeps_readMintJson : keeps I T anything readMintJson.
Proof. by apply (keeps_read anything (λ w, Return (mintJson (files w)))). Qed.

Lemma keeps_readUserAuthJson : keeps I T anything readUserAuthJson.
Proof. by apply (keeps_read anything (λ w, Return (userAuthJson (files w)))). Qed.

Lemma keeps_getWorld : keeps I T anything getWorld.
Proof. by apply (keeps_read anything (λ w, Return w)). Qed.

Lemma keeps_emit e : T e → keeps I T anything (emit e).
Proof.
  intros He w Hw. split; [done|]. split; [|done].
  unfold trace, emit. cbn [snd]. by repeat constructor.
Qed.

Context (P : Platform).

Lemma keeps_newPublicKey v : keeps I T anything (newPublicKey P v).
Proof.
  unfold newPublicKey. destruct v as [s|]; [destruct (validKey P s)|].
  - by apply keeps_ret.
  - apply keeps_throw.
  - apply keeps_throw.
Qed.

Lemma keeps_newConnection : keeps I T anything (newConnection P).
Proof.
  unfold newConnection. eapply keeps_bind; [apply keeps_getenv|]. intros [u|] _.
  - destruct (validEndpoint P u); [by apply keeps_ret | apply keeps_throw].
  - apply keeps_throw.
Qed.

Lemma keeps_rpc {A} call (answer : World → Completion A) :
  T (EvRpc call) → keeps I T anything (rpc call answer).
Proof.
  intros HT w Hw. unfold rpc, after, trace, result.
  destruct (rpcReachable w); cbn [fst snd]; (split; [done|]); (split; [|done]);
    by repeat constructor.
Qed.

(** A computation that never returns ends whatever follows it. *)
Lemma keeps_stop {A B} (R : B → Prop) (m : M A) (k : A → M B) :
  keeps I T (λ _, False) m → keeps I T R (m ≫= k).
Proof. intros Hm. eapply keeps_bind; [exact Hm|]. by intros a []. Qed.

Lemma keeps_never {A} (R : A → Prop) (m : M A) :
  keeps I T (λ _, False) m → keeps I T R m.
Proof. intros Hm. eapply keeps_weaken; [exact Hm|]. by intros a []. Qed.

(** [Transaction.add] and [partialSign] touch neither the world nor the
    network. *)
Lemma keeps_add tx item : keeps I T anything (add tx item).
Proof. destruct item; [by apply keeps_ret | apply keeps_throw | apply keeps_throw]. Qed.

Lemma keeps_add_key tx key :
  recentBlockhash tx = None →
  keeps I T (λ tx', recentBlockhash tx' = None) (add tx (ItemPublicKey key)).
Proof. intros Htx. by apply keeps_ret. Qed.

Lemma keeps_add_string tx s : keeps I T (λ _, False) (add tx (ItemString s)).
Proof. apply keeps_throw. Qed.

Lemma keeps_add_undefined tx : keeps I T (λ _, False) (add tx ItemUndefined).
Proof. apply keeps_throw. Qed.

Lemma keeps_partialSign tx signers : keeps I T anything (partialSign tx signers).
Proof.
  unfold partialSign. destruct signers; [apply keeps_throw|].
  destruct (recentBlockhash tx); [|apply keeps_throw].
  destruct (bool_decide _); [apply keeps_throw|].
  destruct (unparsed _ _); [apply keeps_throw | by apply keeps_ret].
Qed.

(** Without a recent blockhash [partialSign] throws. *)
Lemma keeps_partialSign_stop tx signers :
  recentBlockhash tx = None → keeps I T (λ _, False) (partialSign tx signers).
Proof.
  intros Htx. unfold partialSign. rewrite Htx. destruct signers; apply keeps_throw.
Qed.

Lemma keeps_getTokenAccountBalance address :
  keeps I T (λ _, False) (getTokenAccountBalance address).
Proof. apply keeps_throw. Qed.

Lemma keeps_createMetadataAccountV3 metadata mint mintAuthority payer updateAuthority data :
  keeps I T (λ _, False)
    (createMetadataAccountV3 metadata mint mintAuthority payer updateAuthority data).
Proof. apply keeps_throw. Qed.

Lemma keeps_updateMetadataAccountV3 metadata updateAuthority data :
  keeps I T (λ _, False) (updateMetadataAccountV3 metadata updateAuthority data).
Proof. apply keeps_throw. Qed.

End Keeps.

(** Taking a computation apart along its binds and branches. *)
Ltac keeps_structure :=
  lazymatch goal with
  | |- keeps _ _ _ (mret _) => apply keeps_ret; try done
  | |- keeps _ _ _ (throw _) => apply keeps_throw
  | |- keeps _ _ _ (tryCatch _ _) => apply keeps_tryCatch; [|intros ?]
  | |- keeps _ _ _ (match ?x with _ => _ end) =>
      let H := fresh "Hcase" in
      destruct x eqn:H; try (exfalso; clear -H; vm_compute in H; discriminate H)
  | |- keeps _ _ _ (let _ := _ in _) => cbv zeta
  | |- keeps _ _ _ (_ ≫= _) => eapply (keeps_bind _ _ anything); [|intros ? _]
  end.

Ltac keeps_reads :=
  first [ apply keeps_getenv | apply keeps_readMintJson | apply keeps_readUserAuthJson
        | apply keeps_getWorld | apply keeps_newPublicKey | apply keeps_newConnection
        | apply keeps_rpc; exact Logic.I ].

(** ** Dry-run *)


(** ** Running the steps *)

Lemma run_bind {A B} (m : M A) (k : A → M B) w a w1 t1 :
  m w = (Return a, w1, t1) → (m ≫= k) w = prefixed t1 (k a w1).
Proof.
  intros H. unfold mbind, M_bind, bind, prefixed, result, after, trace. rewrite H.
  by destruct (k a w1) as [[r w2] t2].
Qed.

Lemma run_bind_throw {A B} (m : M A) (k : A → M B) w e w1 t1 :
  m w = (Throw e, w1, t1) → (m ≫= k) w = (Throw e, w1, t1).
Proof. intros H. unfold mbind, M_bind, bind. by rewrite H. Qed.

Lemma run_assoc {A B C} (m : M A) (k1 : A → M B) (k2 : B → M C) w :
  ((m ≫= k1) ≫= k2) w = (m ≫= λ a, k1 a ≫= k2) w.
Proof.
  unfold mbind, M_bind, bind. destruct (m w) as [[[a|e] w1] t1]; [|done].
  destruct (k1 a w1) as [[[b|e] w2] t2]; [|done].
  destruct (k2 b w2) as [[r w3] t3]. by rewrite app_assoc.
Qed.

Lemma prefixed_nil {A} (x : Completion A * World * list Event) : prefixed [] x = x.
Proof. by destruct x as [[r w] t]. Qed.

Lemma result_prefixed {A} t (x : Completion A * World * list Event) :
  result (prefixed t x) = result x.
Proof. done. Qed.

Lemma after_prefixed {A} t (x : Completion A * World * list Event) :
  after (prefixed t x) = after x.
Proof. done. Qed.

Lemma trace_prefixed {A} t (x : Completion A * World * list Event) :
  trace (prefixed t x) = (t ++ trace x)%list.
Proof. done. Qed.

Section Running.

Context (P : Platform).

Lemma loadOrCreateUserAuth_run w :
  loadOrCreateUserAuth P w = (Return (userAuthOf P w), afterUserAuth P w, []).
Proof.
  unfold loadOrCreateUserAuth, userAuthOf, afterUserAuth, mbind, M_bind, bind.
  destruct w as [e [mj [k|]] l bh r s n]; reflexivity.
Qed.

Lemma newConnection_run w relayer treasury :
  Configured P w relayer treasury → newConnection P w = (Return tt, w, []).
Proof.
  intros ((url & Hu & Hv) & _). unfold newConnection, getenv, mbind, M_bind, bind.
  by rewrite Hu, Hv.
Qed.

Lemma newPublicKey_run key w :
  validKey P key = true → newPublicKey P (Some key) w = (Return key, w, []).
Proof. intros H. unfold newPublicKey. by rewrite H. Qed.

Lemma getenv_run key w : getenv key w = (Return (env w !! key), w, []).
Proof. done. Qed.

Lemma readMintJson_run w : readMintJson w = (Return (mintJson (files w)), w, []).
Proof. done. Qed.

Lemma readUserAuthJson_run w : readUserAuthJson w = (Return (userAuthJson (files w)), w, []).
Proof. done. Qed.

Lemma generate_run w :
  generate P w = (Return (keypairOf P (entropy w)), setEntropy (S (entropy w)) w, []).
Proof. done. Qed.

Lemma getAccountInfo_run a w :
  rpcReachable w = true →
  getAccountInfo a w = (Return (ledger w !! a), w, [EvRpc (GetAccountInfo a)]).
Proof. intros H. unfold getAccountInfo, rpc. by rewrite H. Qed.

Lemma getTokenSupply_run a ma fa w :
  rpcReachable w = true → ledger w !! a = Some (MintAccount ma fa) →
  getTokenSupply P a w =
    (Return (tokenSupply P (ledger w) a), w, [EvRpc (GetTokenSupply a)]).
Proof. intros H Ha. unfold getTokenSupply, rpc. by rewrite H, Ha. Qed.

Lemma ret_run {A} (a : A) w : (mret a : M A) w = (Return a, w, []).
Proof. done. Qed.

End Running.


(** One step of a run: the world-independent part of the state is brought
    back to the initial world, and the leading bind is executed. *)
Ltac run_simpl :=
  cbn beta iota;
  cbn [env files ledger rpcReachable latestBlockhash relayScript entropy
       mintJson userAuthJson afterUserAuth setFiles setEntropy setEnv setLedger
       setRelayScript];
  rewrite ?prefixed_nil.

Ltac run_leaf :=
  first [ apply getenv_run | apply readMintJson_run | apply readUserAuthJson_run
        | apply loadOrCreateUserAuth_run | apply generate_run | apply ret_run
        | (apply newPublicKey_run; assumption)
        | (eapply newConnection_run; eassumption)
        | (apply getAccountInfo_run; assumption)
        | (eapply getTokenSupply_run; [assumption | eassumption]) ].

Ltac run_step := first [erewrite run_bind by run_leaf | rewrite run_assoc]; run_simpl.


#[global] Hint Rewrite @trace_prefixed @result_prefixed @after_prefixed : observe.
#[global] Hint Rewrite sent_app sent_cons sent_nil : observe.

Lemma sample_configured e f l script :
  e !! "RPC_URL" = Some "https://api.mainnet-beta.solana.com" →
  e !! "RELAYER_PUBKEY" = Some "RelayerFeePayer" →
  e !! "TREASURY_PUBKEY" = Some OWNER_ADDRESS →
  Configured samplePlatform (sampleWorld e f l script) "RelayerFeePayer" OWNER_ADDRESS.
Proof.
  intros H1 H2 H3. split; [|split; [|split]].
  - exists "https://api.mainnet-beta.solana.com". by split.
  - by split.
  - by split.
  - done.
Defined.

(** ** The events of the submitter *)

Section Submitter.

Context (P : Platform).

Lemma submitter_fetch url auth p :
  keeps (λ _, True) submitterEvent anything (fetch url auth p).
Proof.
  destruct url as [u|]; [|apply keeps_throw].
  intros w _. split; [done|]. split; [|done].
  unfold trace, fetch. cbn [snd]. by repeat constructor.
Qed.

Lemma submitter_confirmTransaction sig tx c :
  keeps (λ _, True) submitterEvent anything (confirmTransaction P sig tx c).
Proof.
  intros w _. split; [done|]. split; [|done].
  unfold trace, confirmTransaction. destruct c as [|[|]]; cbn [snd]; by repeat constructor.
Qed.

Lemma submitter_relayAttempts r k url auth p :
  keeps (λ _, True) submitterEvent anything (relayAttempts P r k url auth p).
Proof.
  revert k. induction r as [|r IH]; intros k; simpl.
  - apply keeps_throw.
  - apply keeps_tryCatch.
    + eapply (keeps_bind _ _ anything); [apply submitter_fetch|]. intros a _.
      destruct (response a).
      * apply keeps_throw.
      * apply keeps_throw.
      * eapply (keeps_bind _ _ anything); [apply submitter_confirmTransaction|].
        intros _ _. by apply keeps_ret.
    + intros e. destruct (Nat.eqb k 3); [apply keeps_throw|].
      eapply (keeps_bind _ _ anything); [by apply keeps_emit|]. intros _ _. apply IH.
Qed.

Lemma submitter_sendViaRelayer pk url tx apiKey :
  keeps (λ _, True) submitterEvent anything (sendViaRelayer P pk url tx apiKey).
Proof.
  unfold sendViaRelayer.
  eapply (keeps_bind _ _ anything); [by apply keeps_rpc|]. intros bh _.
  eapply (keeps_bind _ _ anything); [by apply keeps_emit|]. intros _ _.
  eapply (keeps_bind _ _ anything); [apply keeps_getenv|]. intros d _.
  destruct (bool_decide _); [by apply keeps_ret|]. apply submitter_relayAttempts.
Qed.

(** The submitter leaves the cache directory and the environment alone. *)
Lemma sendViaRelayer_frame pk url tx apiKey w :
  let w' := after (sendViaRelayer P pk url tx apiKey w) in
  env w' = env w ∧ files w' = files w ∧ entropy w' = entropy w ∧
  rpcReachable w' = rpcReachable w ∧ latestBlockhash w' = latestBlockhash w.
Proof.
  destruct (rpcReachable w) eqn:Hrpc.
  - destruct (decide (env w !! "DRY_RUN" = Some "true")) as [Hd|Hd].
    + by rewrite (sendViaRelayer_dry _ _ _ _ _ _ Hrpc Hd).
    + rewrite (sendViaRelayer_live _ _ _ _ _ _ Hrpc Hd). cbv zeta.
      pose proof (relayAttempts_frame P 3 1 url (authorizationHeader apiKey)
                    (withAnchor tx pk (latestBlockhash w)) w) as Hf.
      cbv zeta in Hf. destruct (relayAttempts _ _ _ _ _ _ _) as [[res w'] tr].
      unfold after in *. cbn [fst snd] in *. by rewrite Hrpc in Hf.
  - by rewrite (sendViaRelayer_offline _ _ _ _ _ _ Hrpc).
Qed.

End Submitter.

(** X25.  The submitter keeps to its own business: whatever the outcome,
    [sendViaRelayer] leaves the environment and the cache directory as they
    were, and all it shows is the read of the recency anchor, the
    serialization, POSTs to the relay, confirmation waits and sleeps. *)
Theorem sendViaRelayer_keeps_to_the_relay (P : Platform) (pk : string)
    (url : option string) (tx : Transaction) (apiKey : option string) (w : World) :
  let x := sendViaRelayer P pk url tx apiKey w in
  env (after x) = env w ∧ files (after x) = files w ∧
  Forall submitterEvent (trace x) ∧ sent (trace x) = [].
Proof.
  intros x. subst x.
  destruct (sendViaRelayer_frame P pk url tx apiKey w) as (He & Hf & _).
  destruct (submitter_sendViaRelayer P pk url tx apiKey w Logic.I) as (_ & Ht & _).
  repeat split_and; try done.
  induction Ht as [|e tr He' _ IH]; [done|]. rewrite sent_cons.
  by destruct e as [[]| | | |].
Qed.

(** C5, as amended.  Rollback deletes both cache files, the checkpoint
    [mint.json] and the identity [user_auth.json]: whenever it completes,
    neither file is left.  It submits nothing and changes neither the ledger,
    the relay nor the environment.  It completes whenever there is no
    checkpoint, and also when the recorded address is well-formed and the
    RPC endpoint is configured and answers. *)
Theorem rollback_deletes_cache (P : Platform) (w : World) :
  let x := rollback P w in
  ledger (after x) = ledger w ∧
  env (after x) = env w ∧
  relayScript (after x) = relayScript w ∧
  serialized (trace x) = [] ∧
  posted (trace x) = [] ∧
  (result x = Return tt → files (after x) = noFiles) ∧
  (mintJson (files w) = None → result x = Return tt) ∧
  (∀ m url, mintJson (files w) = Some m → validKey P m = true →
     env w !! "RPC_URL" = Some url → validEndpoint P url = true →
     rpcReachable w = true → result x = Return tt).
Proof.
  intros x. subst x.
  unfold rollback, readMintJson, readUserAuthJson, newPublicKey, newConnection, getenv,
    getAccountInfo, rpc, unlinkMintJson, unlinkUserAuthJson, mbind, M_bind, bind,
    mret, M_ret, ret, throw, result, after, trace.
  destruct w as [e [mj ua] l bh r s n]. cbn [files mintJson userAuthJson env rpcReachable].
  destruct mj as [m|]; cbn.
  - destruct (validKey P m) eqn:Hv; cbn;
      [destruct (e !! "RPC_URL") as [url|] eqn:Hu; cbn;
       [destruct (validEndpoint P url) eqn:He; cbn;
        [destruct r; cbn; [destruct ua; cbn|]|]|]|];
      repeat split; try done; intros; simplify_eq; congruence.
  - destruct ua; cbn; repeat split; try done.
Qed.

(** C5, as stated, fails: rollback removes the identity file as well. *)
Lemma rollback_deletes_identity :
  let w := sampleWorld sampleEnv cached mintedLedger [] in
  let x := rollback samplePlatform w in
  userAuthJson (files w) = Some userAuthKey ∧
  result x = Return tt ∧
  userAuthJson (files (after x)) = None.
Proof. vm_compute. repeat split. Qed.

(** ** Lock-Authorities *)

Section Lock.

Context (P : Platform).

Lemma quiet_observe tr :
  Forall quietEvent tr → serialized tr = [] ∧ posted tr = [].
Proof.
  induction 1 as [|e tr He _ [IH1 IH2]]; [done|].
  rewrite serialized_cons, posted_cons. by destruct e.
Qed.

Lemma keeps_loadOrCreateUserAuth (I : World → Prop) (T : Event → Prop) :
  (∀ w n, I w → I (setEntropy n w)) →
  (∀ w k, I w →
     I (setFiles {| mintJson := mintJson (files w); userAuthJson := Some k |} w)) →
  keeps I T anything (loadOrCreateUserAuth P).
Proof.
  intros He Hf. unfold loadOrCreateUserAuth.
  repeat first [keeps_structure | keeps_reads].
  - intros w Hw. split; [by apply He|]. by split; [constructor|].
  - intros w Hw. split; [by apply Hf|]. by split; [constructor|].
Qed.

(** Without a recorded asset that resolves on the ledger, the step throws
    and hands nothing to the submitter. *)
Lemma lockAuthorities_unmet w0 :
  (mintJson (files w0) = None ∨
   ∃ m, mintJson (files w0) = Some m ∧ ledger w0 !! m = None) →
  keeps (λ w, mintJson (files w) = mintJson (files w0) ∧ ledger w = ledger w0)
    quietEvent (λ _, False) (lockAuthorities P).
Proof.
  intros Hpre. unfold lockAuthorities.
  keeps_structure; [keeps_reads|].
  keeps_structure; [by apply keeps_loadOrCreateUserAuth|].
  do 5 (keeps_structure; [keeps_reads|]).
  keeps_structure; [repeat first [keeps_structure | keeps_reads]|].
  keeps_structure; [keeps_reads|]. cbv zeta.
  eapply (keeps_bind _ _ (λ c, c = mintJson (files w0))).
  { apply (keeps_read _ _ _ (λ w, Return (mintJson (files w)))).
    intros w c (Hm & _) [= <-]. done. }
  intros c ->. destruct Hpre as [->|(m & -> & Hl)]; [apply keeps_throw|].
  eapply (keeps_bind _ _ (λ k, k = m)).
  { unfold newPublicKey. destruct (validKey P m); [by apply keeps_ret|apply keeps_throw]. }
  intros k ->.
  eapply (keeps_bind _ _ (λ a, a = None)).
  { intros w (Hm & Hw). unfold getAccountInfo, rpc, after, trace, result.
    destruct (rpcReachable w); cbn [fst snd].
    - split; [done|]. split; [by repeat constructor|]. intros acct [= <-]. by rewrite Hw.
    - split; [done|]. split; [by repeat constructor|]. intros acct [=]. }
  intros acct ->. apply keeps_throw.
Qed.

(** The DAO address as the step reads it. *)
Lemma daoPubkey_run w0 w' :
  DaoWellFormed P w0 →
  (if truthy (env w0 !! "DAO_PUBKEY")
   then dao ← newPublicKey P (env w0 !! "DAO_PUBKEY"); mret (Some dao)
   else mret None) w' = (Return (daoPubkeyOf w0), w', []).
Proof.
  unfold DaoWellFormed, daoPubkeyOf. intros Hd.
  destruct (truthy (env w0 !! "DAO_PUBKEY")) eqn:Ht; [|done].
  specialize (Hd eq_refl). destruct (env w0 !! "DAO_PUBKEY") as [d|]; [|done].
  change (validKey P d = true) in Hd.
  unfold newPublicKey, mbind, M_bind, bind. by rewrite Hd.
Qed.

End Lock.

(** The run of the step up to the point where it reads the checkpoint. *)
Ltac lock_prefix Hr Ht HD :=
  unfold lockAuthorities;
  do 3 run_step; rewrite Hr; do 2 run_step; rewrite Ht; do 2 run_step;
  erewrite run_bind by (apply daoPubkey_run; exact HD); run_simpl;
  do 2 run_step; fold (daoPubkeyOf); cbv zeta.

Lemma rollback_deletes_cache_witness :
  let w := sampleWorld sampleEnv cached mintedLedger [] in
  result (rollback samplePlatform w) = Return tt.
Proof.
  intros w.
  refine (proj2 (proj2 (proj2 (proj2 (proj2 (proj2 (proj2
    (rollback_deletes_cache samplePlatform w)))))))
    "Mint1" "https://api.mainnet-beta.solana.com" _ _ _ _ _); reflexivity.
Defined.


(** ** The steps and the token library *)

Lemma afterUserAuth_present (P : Platform) w k :
  userAuthJson (files w) = Some k → afterUserAuth P w = w.
Proof.
  destruct w as [e [mj ua] l bh r s n]. cbn. intros ->. reflexivity.
Qed.

Section Steps.

Context (P : Platform) (I : World → Prop) (T : Event → Prop).

Hypothesis T_rpc : ∀ call, T (EvRpc call).
Hypothesis T_send : ∀ tx, T (EvSend tx).
Hypothesis I_entropy : ∀ w n, I w → I (setEntropy n w).
Hypothesis I_identity : ∀ w k,
  I w → userAuthJson (files w) = None →
  I (setFiles {| mintJson := mintJson (files w); userAuthJson := Some k |} w).
Hypothesis I_ledger : ∀ w l, I w → I (setLedger l w).

Lemma steps_rpc {A} call (answer : World → Completion A) :
  keeps I T anything (rpc call answer).
Proof. apply keeps_rpc. apply T_rpc. Qed.

Lemma steps_generate : keeps I T anything (generate P).
Proof. intros w Hw. split; [by apply I_entropy|]. by split; [constructor|]. Qed.

Lemma steps_loadOrCreateUserAuth : keeps I T anything (loadOrCreateUserAuth P).
Proof.
  intros w Hw. rewrite loadOrCreateUserAuth_run.
  unfold after, trace, result. cbn [fst snd]. split; [|by split; [constructor|]].
  destruct (userAuthJson (files w)) as [k|] eqn:Hk.
  - by rewrite (afterUserAuth_present P w k Hk).
  - unfold afterUserAuth. rewrite Hk.
    by apply (I_identity (setEntropy (S (entropy w)) w)); [apply I_entropy|].
Qed.

Lemma steps_sendAndConfirmTransaction ixs signers :
  keeps I T anything (sendAndConfirmTransaction P ixs signers).
Proof.
  unfold sendAndConfirmTransaction.
  eapply (keeps_bind _ _ anything); [apply steps_rpc|]. intros blockhash _. cbv zeta.
  intros w Hw. unfold after, trace, result.
  destruct (broadcast P _ (ledger w)); cbn [fst snd].
  - split; [by apply I_ledger|]. split; [|done]. repeat constructor. apply T_send.
  - split; [done|]. split; [|done]. repeat constructor. apply T_send.
Qed.

Lemma steps_createMint payer mintAuthority freezeAuthority decimals keypair :
  keeps I T anything (createMint P payer mintAuthority freezeAuthority decimals keypair).
Proof.
  unfold createMint.
  repeat first [keeps_structure | apply steps_rpc | apply steps_sendAndConfirmTransaction].
Qed.

Lemma steps_getOrCreateAssociatedTokenAccount payer mint owner :
  keeps I T anything (getOrCreateAssociatedTokenAccount P payer mint owner).
Proof.
  unfold getOrCreateAssociatedTokenAccount, getAssociatedTokenAddressSync, getAccount.
  repeat first [keeps_structure | apply steps_rpc | apply steps_sendAndConfirmTransaction].
Qed.

Lemma steps_mintTo payer mint destination authority amount :
  keeps I T anything (mintTo P payer mint destination authority amount).
Proof. apply steps_sendAndConfirmTransaction. Qed.

Lemma steps_setAuthority payer account currentAuthority authorityType newAuthority :
  keeps I T anything
    (setAuthority P payer account currentAuthority authorityType newAuthority).
Proof. apply steps_sendAndConfirmTransaction. Qed.

Ltac steps_never :=
  first [ apply keeps_partialSign_stop; assumption
        | apply keeps_add_string | apply keeps_add_undefined
        | apply keeps_getTokenAccountBalance
        | apply keeps_createMetadataAccountV3 | apply keeps_updateMetadataAccountV3
        | lazymatch goal with
          | |- keeps _ _ _ (match ?x with _ => _ end) => destruct x; steps_never
          end ].

Ltac steps_run :=
  repeat first
    [ lazymatch goal with
      | |- keeps _ _ _ (match ?a with
                        | Some _ => getTokenAccountBalance _ ≫= _
                        | None => mret false
                        end ≫= _) =>
          eapply (keeps_bind _ _ (λ minted, minted = false));
          [ destruct a; [apply keeps_stop, keeps_getTokenAccountBalance | by apply keeps_ret]
          | intros ? ->; cbv beta iota zeta ]
      end
    | apply keeps_stop; steps_never
    | lazymatch goal with
      | |- keeps _ _ _ (add _ (ItemPublicKey _) ≫= _) =>
          eapply (keeps_bind _ _ (λ tx', recentBlockhash tx' = None));
          [by apply keeps_add_key | intros ? ?]
      end
    | keeps_structure | apply keeps_getenv | apply keeps_readMintJson
    | apply keeps_readUserAuthJson | apply keeps_getWorld | apply keeps_newPublicKey
    | apply keeps_newConnection | apply steps_rpc | apply steps_generate
    | apply steps_loadOrCreateUserAuth | apply steps_createMint
    | apply steps_getOrCreateAssociatedTokenAccount | apply steps_mintTo
    | apply steps_setAuthority | apply keeps_add | apply keeps_partialSign ].

(** No authority is ever found in the reply to [getTokenSupply], so the
    first loop of [lockAuthorities] collects nothing. *)
Lemma steps_collectAuthorityTxs authTypes mint userAuth target txs :
  keeps I T (λ txs', txs' = txs) (collectAuthorityTxs P authTypes mint userAuth target txs).
Proof.
  revert txs. induction authTypes as [|authType rest IH]; intros txs; cbn [collectAuthorityTxs].
  - by apply keeps_ret.
  - eapply (keeps_bind _ _ anything); [apply steps_rpc|]. intros info _. cbv zeta.
    assert (Hno : needsChange (if String.eqb authType "MintTokens" then mintAuthority info
                               else freezeAuthority info) target = false).
    { by destruct (String.eqb authType "MintTokens"). }
    rewrite Hno.
    eapply (keeps_bind _ _ (λ txs', txs' = txs)); [by apply keeps_ret|].
    intros txs' ->. apply IH.
Qed.

(** Create-Asset returns the recorded address or does not return: on the
    transaction it builds, [partialSign] throws. *)
Lemma steps_createTokenMint : keeps I T anything (createTokenMint P).
Proof. unfold createTokenMint. steps_run. Qed.

(** Mint-Supply and Set-Metadata do not return. *)
Lemma steps_mintInitialSupply : keeps I T (λ _, False) (mintInitialSupply P).
Proof. unfold mintInitialSupply. steps_run. Qed.

Lemma steps_setTokenMetadata : keeps I T (λ _, False) (setTokenMetadata P).
Proof. unfold setTokenMetadata. steps_run. Qed.

Lemma steps_lockAuthorities : keeps I T anything (lockAuthorities P).
Proof.
  unfold lockAuthorities.
  repeat first
    [ lazymatch goal with
      | |- keeps _ _ _ (collectAuthorityTxs _ _ _ _ _ _ ≫= _) =>
          eapply (keeps_bind _ _ (λ txs, txs = []));
          [apply steps_collectAuthorityTxs | intros ? ->; by apply keeps_ret]
      end
    | keeps_structure | apply keeps_getenv | apply keeps_readMintJson
    | apply keeps_newPublicKey | apply keeps_newConnection | apply steps_rpc
    | apply steps_loadOrCreateUserAuth ].
Qed.

(** The full deployment does not return. *)
Lemma steps_runAllSteps : keeps I T (λ _, False) (runAllSteps P).
Proof.
  unfold runAllSteps.
  eapply (keeps_bind _ _ anything); [apply steps_createTokenMint|]. intros _ _.
  apply keeps_stop, steps_mintInitialSupply.
Qed.

Lemma steps_checkDeploymentStatus : keeps I T anything (checkDeploymentStatus P).
Proof. unfold checkDeploymentStatus. steps_run. Qed.

End Steps.

(** ** What the steps leave alone *)

Section Frame.

Context (P : Platform) (J : gmap string string → Files → Prop) (T : Event → Prop).

Hypothesis T_all : ∀ e, T e.

(** Writing a missing identity file preserves [J]. *)
Hypothesis J_identity : ∀ e f k,
  J e f → userAuthJson f = None →
  J e {| mintJson := mintJson f; userAuthJson := Some k |}.

Lemma frame_identity w k :
  onCache J w → userAuthJson (files w) = None →
  onCache J (setFiles {| mintJson := mintJson (files w); userAuthJson := Some k |} w).
Proof. intros Hw Hn. by apply (J_identity (env w) (files w) k). Qed.

Ltac frame_side :=
  first [ by apply frame_identity | by intros; apply T_all | by intros [] | done ].

Lemma frame_createTokenMint : keeps (onCache J) T anything (createTokenMint P).
Proof. apply steps_createTokenMint; frame_side. Qed.

Lemma frame_mintInitialSupply : keeps (onCache J) T anything (mintInitialSupply P).
Proof.
  apply keeps_never. apply steps_mintInitialSupply; frame_side.
Qed.

Lemma frame_setTokenMetadata : keeps (onCache J) T anything (setTokenMetadata P).
Proof.
  apply keeps_never. apply steps_setTokenMetadata; frame_side.
Qed.

Lemma frame_lockAuthorities : keeps (onCache J) T anything (lockAuthorities P).
Proof. apply steps_lockAuthorities; frame_side. Qed.

Lemma frame_runAllSteps : keeps (onCache J) T anything (runAllSteps P).
Proof.
  apply keeps_never. apply steps_runAllSteps; frame_side.
Qed.

Lemma frame_checkDeploymentStatus :
  keeps (onCache J) T anything (checkDeploymentStatus P).
Proof. apply steps_checkDeploymentStatus; frame_side. Qed.

Lemma frame_checkEnv : keeps (onCache J) T anything (checkEnv P).
Proof.
  unfold checkEnv, getLatestBlockhash.
  repeat first [ keeps_structure | apply keeps_getenv | apply keeps_getWorld
               | apply keeps_newPublicKey | apply keeps_newConnection
               | apply keeps_rpc; apply T_all ].
Qed.

End Frame.

(** ** Lock-Authorities, run *)

Lemma observed_rpc tr :
  Forall rpcEvent tr → serialized tr = [] ∧ posted tr = [] ∧ sent tr = [].
Proof.
  induction 1 as [|e tr He _ (IH1 & IH2 & IH3)]; [done|].
  rewrite serialized_cons, posted_cons, sent_cons. by destruct e.
Qed.

(** Lock-Authorities only reads: the reply to [getTokenSupply] shows no
    authority, so no change is ever built, sent or handed to the
    submitter. *)
Lemma lockAuthorities_reads (P : Platform) (w : World) :
  let x := lockAuthorities P w in
  serialized (trace x) = [] ∧ posted (trace x) = [] ∧ sent (trace x) = [].
Proof.
  apply observed_rpc.
  by destruct (steps_lockAuthorities P (λ _, True) rpcEvent) with (w := w) as (_ & ? & _).
Qed.

Lemma lockAuthorities_ready (P : Platform) w relayer treasury m ma fa :
  Configured P w relayer treasury → DaoWellFormed P w →
  mintJson (files w) = Some m → validKey P m = true →
  ledger w !! m = Some (MintAccount ma fa) →
  lockAuthorities P w =
    (Return tt, afterUserAuth P w,
     [EvRpc (GetAccountInfo m); EvRpc (GetTokenSupply m); EvRpc (GetTokenSupply m)]).
Proof.
  intros HC HD Hm Hv Hl. pose proof HC as (_ & (Hr & Hrv) & (Ht & Htv) & Hrpc).
  lock_prefix Hr Ht HD.
  rewrite Hm. run_simpl. do 2 run_step. rewrite Hl. run_simpl.
  unfold authorityTypes. cbn [collectAuthorityTxs].
  repeat run_step. done.
Qed.

(** C2, as amended.  Lock-Authorities hands nothing to the relay, whatever
    the state: it serializes nothing, POSTs nothing, and has the token
    library send nothing.  It fails when the checkpoint [mint.json] is
    absent or the address it records does not resolve on the ledger; in a
    configured environment the errors are "Mint not created. Run create mint
    first." and "Mint not found.".  Whether Mint-Supply has completed is not
    looked at: with the asset on the ledger the step returns normally. *)
Theorem lockAuthorities_requires_asset (P : Platform) (w : World) :
  let x := lockAuthorities P w in
  (serialized (trace x) = [] ∧ posted (trace x) = [] ∧ sent (trace x) = []) ∧
  (mintJson (files w) = None ∨
   (∃ m, mintJson (files w) = Some m ∧ ledger w !! m = None) →
   ∃ e, result x = Throw e) ∧
  (∀ relayer treasury, Configured P w relayer treasury → DaoWellFormed P w →
     (mintJson (files w) = None →
        result x = Throw "Mint not created. Run create mint first.") ∧
     (∀ m, mintJson (files w) = Some m → validKey P m = true → ledger w !! m = None →
        result x = Throw "Mint not found.") ∧
     (∀ m ma fa, mintJson (files w) = Some m → validKey P m = true →
        ledger w !! m = Some (MintAccount ma fa) → result x = Return tt)).
Proof.
  intros x. subst x. split; [apply lockAuthorities_reads|]. split.
  - intros Hpre.
    destruct (lockAuthorities_unmet P w Hpre w (conj eq_refl eq_refl)) as (_ & _ & Hres).
    destruct (result (lockAuthorities P w)) as [[]|e] eqn:Hr; [|by eexists].
    destruct (Hres tt eq_refl).
  - intros relayer treasury HC HD.
    pose proof HC as (_ & (Hr & Hrv) & (Ht & Htv) & Hrpc). repeat split_and.
    + intros Hm. lock_prefix Hr Ht HD. rewrite Hm. by observe.
    + intros m Hm Hv Hl.
      lock_prefix Hr Ht HD. rewrite Hm. run_simpl. do 2 run_step. rewrite Hl. by observe.
    + intros m ma fa Hm Hv Hl.
      by rewrite (lockAuthorities_ready P w relayer treasury m ma fa HC HD Hm Hv Hl).
Qed.

Lemma lockAuthorities_requires_asset_witness :
  let w := sampleWorld sampleEnv noFiles ∅ [settled "Sig1"] in
  result (lockAuthorities samplePlatform w) =
    Throw "Mint not created. Run create mint first.".
Proof.
  intros w.
  refine (proj1 (proj2 (proj2 (lockAuthorities_requires_asset samplePlatform w))
            "RelayerFeePayer" OWNER_ADDRESS _ _) _).
  - apply sample_configured; reflexivity.
  - intros H. discriminate H.
  - reflexivity.
Defined.

(** C2, as stated, fails: with the asset created but nothing minted (the
    treasury's holding account does not exist), Lock-Authorities does not
    fail; it returns normally, from the menu as well. *)
Lemma lock_runs_before_mint :
  let w := sampleWorld sampleEnv cached createdLedger [settled "Sig1"; settled "Sig2"] in
  let x := lockAuthorities samplePlatform w in
  ledger w !! sampleAta = None ∧
  result x = Return tt ∧
  posted (trace x) = [] ∧
  result (grokCopilotMenu samplePlatform ["5"] w) = Return AwaitingInput.
Proof. vm_compute. repeat split. Qed.





(** ** Create-Asset, run *)

Lemma createMint_run (P : Platform) payer mintAuthority freezeAuthority decimals keypair w :
  rpcReachable w = true →
  createMint P payer mintAuthority freezeAuthority decimals keypair w =
    let tx := {| feePayer := Some (publicKey payer);
                 recentBlockhash := Some (latestBlockhash w);
                 instructions := [CreateMint (publicKey payer) mintAuthority freezeAuthority
                                    decimals (publicKey keypair)];
                 signatures := [publicKey payer; publicKey keypair] |} in
    let tr := [EvRpc GetMinimumBalanceForRentExemption; EvRpc GetLatestBlockhash;
               EvSend tx] in
    match broadcast P tx (ledger w) with
    | Return _ => (Return (publicKey keypair), setLedger (settle P tx (ledger w)) w, tr)
    | Throw e => (Throw e, w, tr)
    end.
Proof.
  intros Hrpc.
  unfold createMint, sendAndConfirmTransaction, getLatestBlockhash, rpc,
    mbind, M_bind, bind, mret, M_ret, ret.
  rewrite Hrpc. cbn. rewrite Hrpc. cbn. by destruct (broadcast P _ (ledger w)).
Qed.

Lemma createTokenMint_fresh (P : Platform) w relayer treasury :
  Configured P w relayer treasury → mintJson (files w) = None →
  createTokenMint P w =
    let w1 := setEntropy (S (entropy (afterUserAuth P w))) (afterUserAuth P w) in
    let tr := [EvRpc GetMinimumBalanceForRentExemption; EvRpc GetLatestBlockhash;
               EvSend (creationOf P w)] in
    match broadcast P (creationOf P w) (ledger w) with
    | Return _ => (Throw "Transaction recentBlockhash required",
                   setLedger (settle P (creationOf P w) (ledger w)) w1, tr)
    | Throw e => (Throw e, w1, tr)
    end.
Proof.
  intros HC Hm. pose proof HC as (_ & (Hr & Hrv) & _ & Hrpc).
  unfold createTokenMint.
  do 3 run_step. rewrite Hr. do 2 run_step. rewrite Hm. run_simpl. repeat run_step.
  unfold mbind at 1. unfold M_bind, bind. rewrite createMint_run by exact Hrpc. cbv zeta.
  change (creationOf P w) with
    {| feePayer := Some (publicKey (userAuthOf P w));
       recentBlockhash := Some (latestBlockhash w);
       instructions := [CreateMint (publicKey (userAuthOf P w)) (publicKey (userAuthOf P w))
                          (publicKey (userAuthOf P w)) 9
                          (publicKey (keypairOf P (entropy (afterUserAuth P w))))];
       signatures := [publicKey (userAuthOf P w);
                      publicKey (keypairOf P (entropy (afterUserAuth P w)))] |}.
  cbn [latestBlockhash ledger entropy afterUserAuth setFiles setEntropy].
  by destruct (broadcast P _ (ledger w)).
Qed.






(** ** Mint-Supply, run *)

Lemma never_returns {A} (I : World → Prop) (T : Event → Prop) (m : M A) w :
  keeps I T (λ _, False) m → I w → ∃ e, result (m w) = Throw e.
Proof.
  intros Hm Hw. destruct (Hm w Hw) as (_ & _ & Hr).
  destruct (result (m w)) as [a|e]; [by destruct (Hr a)|by eexists].
Qed.

Lemma result_bind_throw {A B} (m : M A) (k : A → M B) w e :
  result (m w) = Throw e → result ((m ≫= k) w) = Throw e.
Proof.
  unfold mbind, M_bind, bind, result. destruct (m w) as [[r w1] t1]. cbn [fst].
  by intros ->.
Qed.

Lemma observed_mintFree tr :
  Forall mintFree tr →
  serialized tr = [] ∧ posted tr = [] ∧ Forall (λ tx, mints tx = false) (sent tr).
Proof.
  induction 1 as [|e tr He _ (IH1 & IH2 & IH3)]; [done|].
  rewrite serialized_cons, posted_cons, sent_cons.
  destruct e; try done. repeat split; try done. by constructor.
Qed.

Section MintSupply.

Context (P : Platform).

Lemma mintFree_rpc {A} call (answer : World → Completion A) :
  keeps (λ _, True) mintFree anything (rpc call answer).
Proof. by apply keeps_rpc. Qed.

Lemma mintFree_loadOrCreateUserAuth :
  keeps (λ _, True) mintFree anything (loadOrCreateUserAuth P).
Proof. by apply keeps_loadOrCreateUserAuth. Qed.

Lemma mintFree_sendAndConfirmTransaction ixs signers :
  existsb (λ i, match i with MintTo _ _ _ _ => true | _ => false end) ixs = false →
  keeps (λ _, True) mintFree anything (sendAndConfirmTransaction P ixs signers).
Proof.
  intros Hixs. unfold sendAndConfirmTransaction.
  eapply (keeps_bind _ _ anything); [apply mintFree_rpc|]. intros blockhash _. cbv zeta.
  intros w _. unfold after, trace, result.
  destruct (broadcast P _ (ledger w)); cbn [fst snd];
    (split; [done|]); (split; [|done]); by repeat constructor.
Qed.

Lemma mintFree_getOrCreateAssociatedTokenAccount payer mint owner :
  keeps (λ _, True) mintFree anything (getOrCreateAssociatedTokenAccount P payer mint owner).
Proof.
  unfold getOrCreateAssociatedTokenAccount, getAssociatedTokenAddressSync, getAccount.
  repeat first [ keeps_structure | apply mintFree_rpc
               | by apply mintFree_sendAndConfirmTransaction ].
Qed.

(** Mint-Supply does not get as far as [mintTo]: with the holding account
    on the ledger it stops at [getTokenAccountBalance], without it at the
    [add] of the account's [instruction]. *)
Lemma mintFree_mintInitialSupply :
  keeps (λ _, True) mintFree (λ _, False) (mintInitialSupply P).
Proof.
  unfold mintInitialSupply.
  repeat first
    [ lazymatch goal with
      | |- keeps _ _ _ (match ?a with
                        | Some _ => getTokenAccountBalance _ ≫= _
                        | None => mret false
                        end ≫= _) =>
          destruct a;
          [ apply keeps_stop, keeps_stop, keeps_getTokenAccountBalance
          | eapply (keeps_bind _ _ (λ minted, minted = false));
            [by apply keeps_ret | intros ? ->; cbv beta iota zeta] ]
      | |- keeps _ _ _ ((getOrCreateAssociatedTokenAccount _ _ _ _ ≫= _) ≫= _) =>
          apply keeps_stop;
          eapply (keeps_bind _ _ anything);
          [apply mintFree_getOrCreateAssociatedTokenAccount
          | intros ? _; apply keeps_add_undefined]
      end
    | keeps_structure | apply keeps_getenv | apply keeps_readMintJson
    | apply keeps_newPublicKey | apply keeps_newConnection | apply mintFree_rpc
    | apply mintFree_loadOrCreateUserAuth ].
Qed.

End MintSupply.

(** C7.  Mint-Supply as written does not do what the claim describes: it
    never completes and never mints.  In every world it throws, hands
    nothing to the relay submitter, and no transaction sent on its behalf
    mints anything.  In particular, when the treasury's holding account
    exists -- for instance holding the full target supply already -- the
    step throws right after looking the account up, at the call of
    [getTokenAccountBalance], which is not a function. *)
Theorem mintInitialSupply_never_mints (P : Platform) (w : World) :
  let x := mintInitialSupply P w in
  (∃ e, result x = Throw e) ∧
  serialized (trace x) = [] ∧ posted (trace x) = [] ∧
  Forall (λ tx, mints tx = false) (sent (trace x)) ∧
  (∀ relayer treasury m acct,
     Configured P w relayer treasury → mintJson (files w) = Some m →
     validKey P m = true →
     ledger w !! findAssociatedTokenAddress P treasury m = Some acct →
     ∃ e, x = (Throw e, afterUserAuth P w,
               [EvRpc (GetAccountInfo (findAssociatedTokenAddress P treasury m))])).
Proof.
  intros x. subst x.
  destruct (mintFree_mintInitialSupply P w Logic.I) as (_ & Ht & _).
  destruct (observed_mintFree _ Ht) as (Hs & Hp & Hm).
  split; [by apply (never_returns _ _ _ _ (mintFree_mintInitialSupply P))|].
  split; [done|]. split; [done|]. split; [done|].
  intros relayer treasury m acct HC Hmint Hv Hata.
  pose proof HC as (_ & (Hr & Hrv) & (Htr & Htv) & Hrpc).
  unfold mintInitialSupply.
  do 3 run_step. rewrite Hr. do 2 run_step. rewrite Htr. do 2 run_step.
  rewrite Hmint. run_simpl. do 2 run_step. rewrite Hata. run_simpl.
  by eexists.
Qed.

Lemma mintInitialSupply_never_mints_witness :
  let w := sampleWorld sampleEnv cached mintedLedger [] in
  ledger w !! sampleAta = Some (TokenAccount supply) ∧
  ∃ e, mintInitialSupply samplePlatform w =
         (Throw e, w, [EvRpc (GetAccountInfo sampleAta)]).
Proof.
  intros w. split; [reflexivity|].
  refine (proj2 (proj2 (proj2 (proj2 (mintInitialSupply_never_mints samplePlatform w))))
            "RelayerFeePayer" OWNER_ADDRESS "Mint1" (TokenAccount supply) _ _ _ _).
  - apply sample_configured; reflexivity.
  - reflexivity.
  - reflexivity.
  - reflexivity.
Defined.

(** X1.  Only Create-Asset writes the checkpoint: whatever the world and
    however they end, Mint-Supply, Set-Metadata, Lock-Authorities, the status
    report and the environment check leave [mint.json] exactly as it was. *)
Theorem only_create_writes_checkpoint (P : Platform) (w : World) :
  mintJson (files (after (mintInitialSupply P w))) = mintJson (files w) ∧
  mintJson (files (after (setTokenMetadata P w))) = mintJson (files w) ∧
  mintJson (files (after (lockAuthorities P w))) = mintJson (files w) ∧
  mintJson (files (after (checkDeploymentStatus P w))) = mintJson (files w) ∧
  mintJson (files (after (checkEnv P w))) = mintJson (files w).
Proof.
  set (J := λ (_ : gmap string string) (f : Files), mintJson f = mintJson (files w)).
  assert (HJ : ∀ e f k, J e f → userAuthJson f = None →
                 J e {| mintJson := mintJson f; userAuthJson := Some k |}) by done.
  assert (HT : ∀ e, anyEvent e) by done.
  repeat split.
  - by destruct (frame_mintInitialSupply P J anyEvent HT HJ w eq_refl) as (? & _).
  - by destruct (frame_setTokenMetadata P J anyEvent HT HJ w eq_refl) as (? & _).
  - by destruct (frame_lockAuthorities P J anyEvent HT HJ w eq_refl) as (? & _).
  - by destruct (frame_checkDeploymentStatus P J anyEvent HT w eq_refl) as (? & _).
  - by destruct (frame_checkEnv P J anyEvent HT w eq_refl) as (? & _).
Qed.

(** X2.  No step changes the process environment, and a step never replaces
    an identity that is already on disk: after any of the four steps, or
    after the full deployment, [process.env] is what it was and
    [user_auth.json] still holds the same keypair. *)
Theorem steps_keep_environment_and_identity (P : Platform) (w : World) (k : Keypair) :
  userAuthJson (files w) = Some k →
  let kept := λ w', env w' = env w ∧ userAuthJson (files w') = Some k in
  kept (after (createTokenMint P w)) ∧
  kept (after (mintInitialSupply P w)) ∧
  kept (after (setTokenMetadata P w)) ∧
  kept (after (lockAuthorities P w)) ∧
  kept (after (runAllSteps P w)).
Proof.
  intros Hk kept.
  set (J := λ (e : gmap string string) (f : Files), e = env w ∧ userAuthJson f = Some k).
  assert (HJ : ∀ e f k', J e f → userAuthJson f = None →
                 J e {| mintJson := mintJson f; userAuthJson := Some k' |}).
  { intros e f k' (_ & Hf) Hn. congruence. }
  assert (HT : ∀ e, anyEvent e) by done.
  assert (H0 : onCache J w) by done.
  repeat split.
  - by destruct (frame_createTokenMint P J anyEvent HT HJ w H0) as ((? & ?) & _).
  - by destruct (frame_createTokenMint P J anyEvent HT HJ w H0) as ((? & ?) & _).
  - by destruct (frame_mintInitialSupply P J anyEvent HT HJ w H0) as ((? & ?) & _).
  - by destruct (frame_mintInitialSupply P J anyEvent HT HJ w H0) as ((? & ?) & _).
  - by destruct (frame_setTokenMetadata P J anyEvent HT HJ w H0) as ((? & ?) & _).
  - by destruct (frame_setTokenMetadata P J anyEvent HT HJ w H0) as ((? & ?) & _).
  - by destruct (frame_lockAuthorities P J anyEvent HT HJ w H0) as ((? & ?) & _).
  - by destruct (frame_lockAuthorities P J anyEvent HT HJ w H0) as ((? & ?) & _).
  - by destruct (frame_runAllSteps P J anyEvent HT HJ w H0) as ((? & ?) & _).
  - by destruct (frame_runAllSteps P J anyEvent HT HJ w H0) as ((? & ?) & _).
Qed.

Lemma steps_keep_environment_and_identity_witness :
  let w := sampleWorld sampleEnv cached createdLedger [settled "Sig1"] in
  userAuthJson (files (after (runAllSteps samplePlatform w))) = Some userAuthKey.
Proof.
  intros w.
  refine (proj2 (proj2 (proj2 (proj2 (proj2
    (steps_keep_environment_and_identity samplePlatform w userAuthKey _)))))).
  reflexivity.
Defined.

(** X3.  The identity is created once: [loadOrCreateUserAuth] leaves an
    identity file holding the keypair it returns, a second call returns that
    same keypair without generating anything or touching the world, and an
    identity already on disk is returned as it is. *)
Theorem loadOrCreateUserAuth_idempotent (P : Platform) (w : World) :
  let x := loadOrCreateUserAuth P w in
  (∃ k, result x = Return k ∧ userAuthJson (files (after x)) = Some k ∧
        loadOrCreateUserAuth P (after x) = (Return k, after x, [])) ∧
  (∀ k, userAuthJson (files w) = Some k → x = (Return k, w, [])) ∧
  (userAuthJson (files w) = None →
     result x = Return (keypairOf P (entropy w)) ∧ entropy (after x) = S (entropy w)) ∧
  mintJson (files (after x)) = mintJson (files w).
Proof.
  intros x. subst x. rewrite !loadOrCreateUserAuth_run.
  unfold result, after. cbn [fst snd]. split; [|split; [|split]].
  - exists (userAuthOf P w). split; [done|]. split; [done|].
    unfold userAuthOf, afterUserAuth.
    by destruct w as [e [mj [k|]] l bh r s n].
  - intros k Hk. unfold userAuthOf, afterUserAuth.
    destruct w as [e [mj ua] l bh r s n]. cbn in *. by subst ua.
  - intros Hn. unfold userAuthOf, afterUserAuth. cbn. by rewrite Hn.
  - done.
Qed.

(** X4.  The checkpoint always names the asset Create-Asset reports: a call
    that throws leaves [mint.json] as it was, and a call that returns an
    address either leaves [mint.json] as it was or has recorded exactly the
    address it returns. *)
Theorem createTokenMint_checkpoint_matches (P : Platform) (w : World) :
  let x := createTokenMint P w in
  match result x with
  | Return k =>
      mintJson (files (after x)) = mintJson (files w) ∨
      mintJson (files (after x)) = Some k
  | Throw _ => mintJson (files (after x)) = mintJson (files w)
  end.
Proof.
  set (J := λ (_ : gmap string string) (f : Files), mintJson f = mintJson (files w)).
  assert (HJ : ∀ e f k, J e f → userAuthJson f = None →
                 J e {| mintJson := mintJson f; userAuthJson := Some k |}) by done.
  assert (HT : ∀ e, anyEvent e) by done.
  destruct (frame_createTokenMint P J anyEvent HT HJ w eq_refl) as (Hafter & _ & _).
  cbv zeta. destruct (result (createTokenMint P w)); [left|]; exact Hafter.
Qed.

(** ** Steps that need the checkpoint *)

Section NeedsCheckpoint.

Context (P : Platform).

Lemma noCheckpoint_read :
  keeps noCheckpoint quietEvent (λ c : option string, c = None) readMintJson.
Proof.
  apply (keeps_read _ _ _ (λ w, Return (mintJson (files w)))).
  by intros w c Hw [= <-].
Qed.

Lemma mintInitialSupply_unmet :
  keeps noCheckpoint quietEvent (λ _, False) (mintInitialSupply P).
Proof.
  unfold mintInitialSupply.
  keeps_structure; [keeps_reads|].
  keeps_structure; [by apply keeps_loadOrCreateUserAuth|].
  do 4 (keeps_structure; [keeps_reads|]).
  eapply keeps_bind; [apply noCheckpoint_read|]. intros c ->. apply keeps_throw.
Qed.

Lemma setTokenMetadata_unmet :
  keeps noCheckpoint quietEvent (λ _, False) (setTokenMetadata P).
Proof.
  unfold setTokenMetadata.
  keeps_structure; [keeps_reads|].
  keeps_structure; [by apply keeps_loadOrCreateUserAuth|].
  do 2 (keeps_structure; [keeps_reads|]).
  eapply keeps_bind; [apply noCheckpoint_read|]. intros c ->. apply keeps_throw.
Qed.

End NeedsCheckpoint.

(** X5.  Mint-Supply and Set-Metadata refuse to run without a checkpoint:
    when [mint.json] is absent each of them throws, having handed nothing to
    the submitter, and in a configured environment the error is "Mint not
    created. Run create mint first.". *)
Theorem steps_require_checkpoint (P : Platform) (w : World) :
  mintJson (files w) = None →
  let refused := λ x : Completion unit * World * list Event,
    (∃ e, result x = Throw e) ∧ serialized (trace x) = [] ∧ posted (trace x) = [] ∧
    (∀ relayer treasury, Configured P w relayer treasury →
       result x = Throw "Mint not created. Run create mint first.") in
  refused (mintInitialSupply P w) ∧ refused (setTokenMetadata P w).
Proof.
  intros Hm refused. split.
  - destruct (mintInitialSupply_unmet P w Hm) as (_ & Hq & Hres).
    destruct (quiet_observe _ Hq) as (Hs & Hp).
    split; [|split; [done|split; [done|]]].
    + destruct (result (mintInitialSupply P w)) as [[]|e] eqn:Hr; [|by eexists].
      destruct (Hres tt eq_refl).
    + intros relayer treasury HC. pose proof HC as (_ & (Hr & Hrv) & (Ht & Htv) & Hrpc).
      unfold mintInitialSupply. do 3 run_step. rewrite Hr. do 2 run_step. rewrite Ht.
      do 2 run_step. rewrite Hm. by observe.
  - destruct (setTokenMetadata_unmet P w Hm) as (_ & Hq & Hres).
    destruct (quiet_observe _ Hq) as (Hs & Hp).
    split; [|split; [done|split; [done|]]].
    + destruct (result (setTokenMetadata P w)) as [[]|e] eqn:Hr; [|by eexists].
      destruct (Hres tt eq_refl).
    + intros relayer treasury HC. pose proof HC as (_ & (Hr & Hrv) & (Ht & Htv) & Hrpc).
      unfold setTokenMetadata. do 3 run_step. rewrite Hr. do 2 run_step.
      rewrite Hm. by observe.
Qed.

Lemma steps_require_checkpoint_witness :
  let w := sampleWorld sampleEnv noFiles ∅ [settled "Sig1"] in
  posted (trace (mintInitialSupply samplePlatform w)) = [].
Proof.
  intros w.
  refine (proj1 (proj2 (proj2 (proj1 (steps_require_checkpoint samplePlatform w _))))).
  reflexivity.
Defined.

(** ** What the steps come to *)

(** X6.  Set-Metadata never completes: in every world it throws, having
    handed nothing to the relay submitter, sent nothing and left the ledger
    alone.  In a configured world with the asset recorded it gets as far as
    one look-up of the metadata account and stops at the call that should
    build the instruction, whether that account exists or not. *)
Theorem setTokenMetadata_never_completes (P : Platform) (w : World) :
  let x := setTokenMetadata P w in
  (∃ e, result x = Throw e) ∧
  (serialized (trace x) = [] ∧ posted (trace x) = [] ∧ sent (trace x) = []) ∧
  ledger (after x) = ledger w ∧
  (∀ relayer treasury m, Configured P w relayer treasury →
     mintJson (files w) = Some m → validKey P m = true →
     after x = afterUserAuth P w ∧
     trace x = [EvRpc (GetAccountInfo (findMetadataPda P m))]).
Proof.
  intros x. subst x.
  assert (Hk : keeps (λ w', ledger w' = ledger w) rpcEvent (λ _, False) (setTokenMetadata P))
    by (by apply steps_setTokenMetadata).
  destruct (Hk w eq_refl) as (Hl & Ht & _).
  split; [by apply (never_returns _ _ _ _ Hk)|].
  split; [by apply observed_rpc|]. split; [done|].
  intros relayer treasury m HC Hm Hv. pose proof HC as (_ & (Hr & Hrv) & _ & Hrpc).
  unfold setTokenMetadata.
  do 3 run_step. rewrite Hr. do 2 run_step. rewrite Hm. run_simpl. do 2 run_step.
  by destruct (ledger w !! findMetadataPda P m).
Qed.

Lemma setTokenMetadata_never_completes_witness :
  let w := sampleWorld sampleEnv cached createdLedger [settled "Sig1"] in
  trace (setTokenMetadata samplePlatform w) =
    [EvRpc (GetAccountInfo (findMetadataPda samplePlatform "Mint1"))].
Proof.
  intros w.
  refine (proj2 (proj2 (proj2 (proj2 (setTokenMetadata_never_completes samplePlatform w)))
            "RelayerFeePayer" OWNER_ADDRESS "Mint1" _ _ _)).
  - apply sample_configured; reflexivity.
  - reflexivity.
  - reflexivity.
Defined.

(** X7.  Create-Asset never writes the checkpoint and never reaches the
    relay submitter.  It returns only the address the checkpoint already
    records, found on the ledger, and has then sent nothing and left the
    ledger alone; in every other case it throws. *)
Theorem createTokenMint_returns_only_recorded (P : Platform) (w : World) :
  let x := createTokenMint P w in
  mintJson (files (after x)) = mintJson (files w) ∧
  (serialized (trace x) = [] ∧ posted (trace x) = []) ∧
  (∀ k, result x = Return k →
     mintJson (files w) = Some k ∧ is_Some (ledger w !! k) ∧
     sent (trace x) = [] ∧ ledger (after x) = ledger w).
Proof.
  intros x. subst x. repeat split_and.
  - set (J := λ (_ : gmap string string) (f : Files), mintJson f = mintJson (files w)).
    by destruct (frame_createTokenMint P J anyEvent) with (w := w) as (? & _).
  - destruct (steps_createTokenMint P (λ _, True) quietEvent) with (w := w)
      as (_ & Hq & _); try done.
    by destruct (quiet_observe _ Hq).
  - destruct (steps_createTokenMint P (λ _, True) quietEvent) with (w := w)
      as (_ & Hq & _); try done.
    by destruct (quiet_observe _ Hq).
  - intros k.
    unfold createTokenMint, newConnection, loadOrCreateUserAuth, readUserAuthJson,
      writeUserAuthJson, generate, getenv, newPublicKey, readMintJson, getAccountInfo,
      createMint, sendAndConfirmTransaction, getLatestBlockhash, rpc, add, partialSign,
      newTransaction, mbind, M_bind, bind, mret, M_ret, ret, throw, result, after, trace.
    repeat (case_match; simplify_eq/=); try done; intros [= <-]; by eauto.
Qed.

Lemma createTokenMint_returns_only_recorded_witness :
  let w := sampleWorld sampleEnv cached createdLedger [settled "Sig1"] in
  mintJson (files w) = Some "Mint1" ∧ sent (trace (createTokenMint samplePlatform w)) = [].
Proof.
  intros w.
  destruct (proj2 (proj2 (createTokenMint_returns_only_recorded samplePlatform w))
              "Mint1" eq_refl) as (Hm & _ & Hs & _).
  exact (conj Hm Hs).
Defined.

(** X8.  When the treasury's holding account is missing, Mint-Supply does
    not batch its creation with the mint: the token library sends the
    creation in a transaction of its own, paid and signed by the deployer.
    Even when that transaction lands, the step then stops at the [add] of
    the account's [instruction], which is undefined, and nothing is
    minted. *)
Theorem mintInitialSupply_missing_account (P : Platform) (w : World)
    (relayer treasury m : string) :
  Configured P w relayer treasury →
  mintJson (files w) = Some m → validKey P m = true →
  onCurve P treasury = true →
  ledger w !! findAssociatedTokenAddress P treasury m = None →
  let tx := accountCreationOf P w m treasury in
  let x := mintInitialSupply P w in
  sent (trace x) = [tx] ∧
  (∀ sig n, broadcast P tx (ledger w) = Return sig →
     settle P tx (ledger w) !! findAssociatedTokenAddress P treasury m = Some (TokenAccount n) →
     result x = Throw "Cannot use 'in' operator to search for 'instructions' in undefined" ∧
     ledger (after x) = settle P tx (ledger w)).
Proof.
  intros HC Hm Hv Hon Hata tx x. subst x.
  pose proof HC as (_ & (Hr & Hrv) & (Htr & Htv) & Hrpc).
  unfold mintInitialSupply.
  do 3 run_step. rewrite Hr. do 2 run_step. rewrite Htr. do 2 run_step.
  rewrite Hm. run_simpl. do 2 run_step. rewrite Hata. run_simpl. run_step.
  unfold getOrCreateAssociatedTokenAccount, getAssociatedTokenAddressSync, getAccount,
    sendAndConfirmTransaction, getLatestBlockhash, rpc, tryCatch.
  rewrite Hon.
  change (findProgramAddressSync P
            [SeedKey treasury; SeedKey TOKEN_2022_PROGRAM_ID; SeedKey m]
            ASSOCIATED_TOKEN_PROGRAM_ID) with (findAssociatedTokenAddress P treasury m).
  unfold mbind, M_bind, bind, mret, M_ret, ret, throw, result, after, trace.
  cbn [rpcReachable ledger afterUserAuth setFiles setEntropy latestBlockhash fst snd].
  rewrite Hrpc, Hata. cbn. rewrite !Hrpc. cbn.
  change {| feePayer := Some (publicKey (userAuthOf P w));
            recentBlockhash := Some (latestBlockhash w);
            instructions := [CreateAssociatedTokenAccount (publicKey (userAuthOf P w))
                               m treasury];
            signatures := [publicKey (userAuthOf P w)] |} with tx.
  change (ledger (afterUserAuth P w)) with (ledger w).
  split.
  - destruct (broadcast P tx (ledger w)); cbn; rewrite ?Hrpc, ?Hata; cbn;
      repeat (case_match; simplify_eq/=); done.
  - intros sig n Hb Hs. rewrite Hb. cbn. rewrite Hrpc, Hs. cbn. done.
Qed.

Lemma mintInitialSupply_missing_account_witness :
  let w := sampleWorld sampleEnv cached createdLedger [] in
  let x := mintInitialSupply samplePlatform w in
  sent (trace x) = [accountCreationOf samplePlatform w "Mint1" OWNER_ADDRESS] ∧
  result x = Throw "Cannot use 'in' operator to search for 'instructions' in undefined" ∧
  ledger (after x) !! sampleAta = Some (TokenAccount 0).
Proof.
  intros w x.
  assert (HC : Configured samplePlatform w "RelayerFeePayer" OWNER_ADDRESS)
    by (apply sample_configured; reflexivity).
  pose proof (mintInitialSupply_missing_account samplePlatform w "RelayerFeePayer"
                OWNER_ADDRESS "Mint1" HC eq_refl eq_refl eq_refl eq_refl) as (Hs & Hr).
  destruct (Hr "SentSig" 0%N eq_refl eq_refl) as (Hres & Hl).
  split; [exact Hs|]. split; [exact Hres|].
  subst x. rewrite Hl. reflexivity.
Defined.

(** X16.  Lock-Authorities changes no authority: in every world it leaves
    the ledger and the relay as they were and shows nothing but requests
    through the connection.  With the asset recorded and on the ledger, in
    a configured world, the run is one look-up of the asset and one request
    for its supply per authority slot, and it returns normally. *)
Theorem lockAuthorities_changes_nothing (P : Platform) (w : World) :
  let x := lockAuthorities P w in
  ledger (after x) = ledger w ∧
  relayScript (after x) = relayScript w ∧
  Forall rpcEvent (trace x) ∧
  (∀ relayer treasury m ma fa, Configured P w relayer treasury → DaoWellFormed P w →
     mintJson (files w) = Some m → validKey P m = true →
     ledger w !! m = Some (MintAccount ma fa) →
     x = (Return tt, afterUserAuth P w,
          [EvRpc (GetAccountInfo m); EvRpc (GetTokenSupply m); EvRpc (GetTokenSupply m)])).
Proof.
  intros x. subst x.
  destruct (steps_lockAuthorities P
              (λ w', ledger w' = ledger w ∧ relayScript w' = relayScript w) rpcEvent)
    with (w := w) as ((Hl & Hs) & Ht & _); try done.
  repeat split_and; try done.
  intros relayer treasury m ma fa HC HD Hm Hv Hacct.
  by apply (lockAuthorities_ready P w relayer treasury m ma fa).
Qed.

Lemma lockAuthorities_changes_nothing_witness :
  let w := sampleWorld sampleEnv cached createdLedger [settled "Sig1"] in
  lockAuthorities samplePlatform w =
    (Return tt, w,
     [EvRpc (GetAccountInfo "Mint1"); EvRpc (GetTokenSupply "Mint1");
      EvRpc (GetTokenSupply "Mint1")]).
Proof.
  intros w.
  refine (proj2 (proj2 (proj2 (lockAuthorities_changes_nothing samplePlatform w)))
            "RelayerFeePayer" OWNER_ADDRESS "Mint1" (Some "UserAuth") (Some "UserAuth")
            _ _ _ _ _).
  - apply sample_configured; reflexivity.
  - intros H. discriminate H.
  - reflexivity.
  - reflexivity.
  - reflexivity.
Defined.

(** ** Environment validation *)

Lemma readEvent_quiet (tr : list Event) :
  Forall readEvent tr → serialized tr = [] ∧ posted tr = [] ∧ sleeps tr = [].
Proof.
  induction 1 as [|e tr He _ IH]; [done|].
  destruct e as [[]| | | |]; try done; by observe.
Qed.

Section CheckEnv.

Context (P : Platform).

Lemma checkEnv_accepted w :
  SettingsAccepted P w →
  checkEnv P w =
    (newConnection P;; tryCatch (getLatestBlockhash;; mret true) (λ _, mret false)) w.
Proof.
  intros (Hreq & Hrel & Htre & Hown & Hdao & Hmode).
  assert (Hall : forallb (λ key, truthy (env w !! key)) required = true).
  { apply forallb_forall. intros key Hin. apply Hreq. by apply list_elem_of_In. }
  assert (∃ relayer, env w !! "RELAYER_PUBKEY" = Some relayer) as [relayer Hr].
  { specialize (Hreq "RELAYER_PUBKEY"). destruct (env w !! "RELAYER_PUBKEY"); [by eexists|].
    discriminate Hreq. by apply (bool_decide_unpack _). }
  rewrite Hr in Hrel. change (validKey P relayer = true) in Hrel.
  unfold DaoWellFormed in Hdao.
  unfold checkEnv, getWorld, newPublicKey, tryCatch, mbind, M_bind, bind, mret, M_ret,
    ret, throw.
  rewrite Hall, Hr, Hrel, Htre, Hown. cbn [negb].
  rewrite bool_decide_eq_true_2 by done. cbn [negb].
  rewrite (bool_decide_eq_true_2 _ Hmode). cbn [negb].
  destruct (truthy (env w !! "DAO_PUBKEY")) eqn:Ht.
  - specialize (Hdao eq_refl). destruct (env w !! "DAO_PUBKEY") as [d|]; [|done].
    change (validKey P d = true) in Hdao. rewrite Hdao.
    cbn -[newConnection getLatestBlockhash].
    destruct (newConnection P w) as [[[] ?] ?]; [|done].
    by destruct (getLatestBlockhash _) as [[[] ?] ?].
  - cbn -[newConnection getLatestBlockhash].
    destruct (newConnection P w) as [[[] ?] ?]; [|done].
    by destruct (getLatestBlockhash _) as [[[] ?] ?].
Qed.

Lemma checkEnv_accepts w :
  SettingsAccepted P w →
  validEndpoint P (default "" (env w !! "RPC_URL")) = true →
  checkEnv P w = (Return (rpcReachable w), w, [EvRpc GetLatestBlockhash]).
Proof.
  intros Hacc Hurl. rewrite (checkEnv_accepted w Hacc).
  unfold tryCatch, newConnection, getenv, getLatestBlockhash, rpc, mbind, M_bind, bind,
    mret, M_ret, ret, throw.
  destruct (env w !! "RPC_URL") as [url|] eqn:Hu; cbn in Hurl |- *.
  - rewrite Hurl. by destruct (rpcReachable w).
  - destruct Hacc as (Hreq & _). specialize (Hreq "RPC_URL"). rewrite Hu in Hreq.
    discriminate Hreq. by apply (bool_decide_unpack _).
Qed.

Lemma checkEnv_bad_endpoint w :
  SettingsAccepted P w →
  validEndpoint P (default "" (env w !! "RPC_URL")) = false →
  ∃ e, checkEnv P w = (Throw e, w, []).
Proof.
  intros Hacc Hurl. rewrite (checkEnv_accepted w Hacc).
  unfold tryCatch, newConnection, getenv, getLatestBlockhash, rpc, mbind, M_bind, bind,
    mret, M_ret, ret, throw.
  destruct (env w !! "RPC_URL") as [url|]; cbn in Hurl |- *.
  - rewrite Hurl. by eexists.
  - by eexists.
Qed.

Lemma checkEnv_cases w :
  SettingsAccepted P w ∨ checkEnv P w = (Return false, w, []).
Proof.
  unfold checkEnv, getWorld, tryCatch, newPublicKey, newConnection, getenv,
    getLatestBlockhash, rpc, mbind, M_bind, bind, mret, M_ret, ret, throw.
  destruct (forallb _ required) eqn:Hall; [|by right]. cbn [negb].
  destruct (env w !! "RELAYER_PUBKEY") as [rk|] eqn:Hrk; [|by right].
  destruct (validKey P rk) eqn:Hrv; [|by right].
  destruct (env w !! "TREASURY_PUBKEY") as [tk|] eqn:Htk; [|by right].
  destruct (validKey P tk) eqn:Htv; [|by right].
  destruct (bool_decide (Some tk = Some OWNER_ADDRESS)) eqn:Hown; [|by right]. cbn [negb].
  apply bool_decide_eq_true in Hown. injection Hown as ->.
  assert (Hdao : (if truthy (env w !! "DAO_PUBKEY")
                  then validKey P (default "" (env w !! "DAO_PUBKEY")) else true) = true
                 → bool_decide (orElse (env w !! "AUTHORITY_MODE") "" ∈ authorityModes)
                   = true → SettingsAccepted P w).
  { intros Hd Hm. split; [|split; [|split; [|split; [|split]]]].
    - intros key Hin. rewrite forallb_forall in Hall. apply Hall. by apply list_elem_of_In.
    - by rewrite Hrk.
    - done.
    - done.
    - intros Ht. by rewrite Ht in Hd.
    - by apply bool_decide_eq_true in Hm. }
  destruct (truthy (env w !! "DAO_PUBKEY")) eqn:Ht.
  - destruct (env w !! "DAO_PUBKEY") as [d|]; [|by right].
    change (validKey P (default "" (Some d))) with (validKey P d) in Hdao.
    destruct (validKey P d); [|by right]. cbn.
    destruct (bool_decide _) eqn:Hm; [|by right]. left. by apply Hdao.
  - cbn. destruct (bool_decide _) eqn:Hm; [|by right]. left. by apply Hdao.
Qed.

Lemma checkEnv_rejects w :
  ¬ SettingsAccepted P w → checkEnv P w = (Return false, w, []).
Proof. intros Hno. by destruct (checkEnv_cases w) as [Hacc|Heq]. Qed.

Lemma checkEnv_reads w :
  after (checkEnv P w) = w ∧ Forall readEvent (trace (checkEnv P w)).
Proof.
  destruct (checkEnv_cases w) as [Hacc|Heq]; [|by rewrite Heq].
  destruct (validEndpoint P (default "" (env w !! "RPC_URL"))) eqn:Hurl.
  - rewrite (checkEnv_accepts w Hacc Hurl). split; [done|]. by repeat constructor.
  - destruct (checkEnv_bad_endpoint w Hacc Hurl) as [e He]. by rewrite He.
Qed.

End CheckEnv.

(** X10.  [checkEnv] returns [true] exactly when the settings are accepted
    (every required setting present, keys well-formed, the treasury equal to
    the owner address, the DAO address well-formed if given, the authority
    mode one of 'null', 'dao', 'treasury' -- an unset mode is refused), the
    RPC endpoint is well-formed and it answers.  It is read-only: it never
    changes the world and hands nothing to the submitter. *)
Theorem checkEnv_accepts_exactly (P : Platform) (w : World) :
  let x := checkEnv P w in
  (result x = Return true ↔
     SettingsAccepted P w ∧
     validEndpoint P (default "" (env w !! "RPC_URL")) = true ∧
     rpcReachable w = true) ∧
  (env w !! "AUTHORITY_MODE" = None → result x = Return false) ∧
  after x = w ∧ serialized (trace x) = [] ∧ posted (trace x) = [].
Proof.
  intros x. subst x. split; [|split].
  - split.
    + intros Hres.
      assert (Hacc : SettingsAccepted P w).
      { destruct (checkEnv_cases P w) as [|Heq]; [done|].
        rewrite Heq in Hres. discriminate Hres. }
      split; [done|].
      destruct (validEndpoint P (default "" (env w !! "RPC_URL"))) eqn:Hurl.
      * rewrite (checkEnv_accepts P w Hacc Hurl) in Hres. by injection Hres as ->.
      * destruct (checkEnv_bad_endpoint P w Hacc Hurl) as [e He].
        rewrite He in Hres. discriminate Hres.
    + intros (Hacc & Hurl & Hrpc). by rewrite (checkEnv_accepts P w Hacc Hurl), Hrpc.
  - intros Hmode. rewrite (checkEnv_rejects P w); [done|].
    intros (_ & _ & _ & _ & _ & Hin). unfold orElse in Hin. rewrite Hmode in Hin.
    cbn in Hin. unfold authorityModes in Hin.
    repeat (apply elem_of_cons in Hin as [Hin|Hin]; [discriminate Hin|]).
    by apply elem_of_nil in Hin.
  - destruct (checkEnv_reads P w) as (Hw & Ht).
    by destruct (readEvent_quiet _ Ht) as (? & ? & _).
Qed.

Lemma checkEnv_accepts_exactly_witness :
  result (checkEnv samplePlatform (sampleWorld sampleEnv noFiles ∅ [])) = Return true.
Proof.
  refine (proj2 (proj1 (checkEnv_accepts_exactly samplePlatform
            (sampleWorld sampleEnv noFiles ∅ []))) _).
  split; [|split; reflexivity].
  split; [|split; [|split; [|split; [|split]]]]; try reflexivity.
  - intros key Hin. unfold required in Hin.
    repeat (apply elem_of_cons in Hin as [->|Hin]; [reflexivity|]).
    by apply elem_of_nil in Hin.
  - intros Ht. vm_compute in Ht. discriminate Ht.
  - apply (bool_decide_unpack _). vm_compute. exact Logic.I.
Defined.

(** X11.  Configuration errors surface before any network activity: when
    the settings are not accepted, [checkEnv] returns [false] without a
    single call to the RPC endpoint, whatever the state of the endpoint. *)
Theorem checkEnv_rejects_before_network (P : Platform) (w : World) :
  ¬ SettingsAccepted P w →
  let x := checkEnv P w in
  result x = Return false ∧ trace x = [] ∧ after x = w.
Proof. intros Hno x. subst x. by rewrite (checkEnv_rejects P w Hno). Qed.

Lemma checkEnv_rejects_before_network_witness :
  let w := sampleWorld (delete "AUTHORITY_MODE" sampleEnv) noFiles ∅ [] in
  trace (checkEnv samplePlatform w) = [].
Proof.
  intros w.
  refine (proj1 (proj2 (checkEnv_rejects_before_network samplePlatform w _))).
  intros (_ & _ & _ & _ & _ & Hin). vm_compute in Hin.
  repeat (apply elem_of_cons in Hin as [Hin|Hin]; [discriminate Hin|]).
  by apply elem_of_nil in Hin.
Defined.

(** ** Status *)

Lemma newConnection_silent (P : Platform) w : ∃ c, newConnection P w = (c, w, []).
Proof.
  unfold newConnection, getenv, mbind, M_bind, bind, ret, throw.
  destruct (env w !! "RPC_URL") as [u|]; [destruct (validEndpoint P u)|]; by eexists.
Qed.

Lemma newPublicKey_silent (P : Platform) v w : ∃ c, newPublicKey P v w = (c, w, []).
Proof.
  unfold newPublicKey, ret, throw.
  destruct v as [s|]; [destruct (validKey P s)|]; by eexists.
Qed.

Lemma checkDeploymentStatus_keeps (P : Platform) (w : World) :
  keeps (λ w', w' = w) readEvent anything (checkDeploymentStatus P).
Proof.
  unfold checkDeploymentStatus.
  repeat first [ apply keeps_stop, keeps_getTokenAccountBalance
               | keeps_structure | keeps_reads ].
Qed.

(** X12.  [checkDeploymentStatus] only reads: it leaves the world as it
    found it and shows nothing but reads through the connection; without a
    checkpoint it does not touch the network at all; and, given a
    well-formed endpoint, treasury key and checkpoint, it returns normally
    whatever the ledger holds and whether or not the endpoint answers --
    errors of the three ledger reads are swallowed. *)
Theorem checkDeploymentStatus_only_reads (P : Platform) (w : World) :
  let x := checkDeploymentStatus P w in
  after x = w ∧
  Forall readEvent (trace x) ∧
  (mintJson (files w) = None → trace x = []) ∧
  (StatusInputs P w → result x = Return tt).
Proof.
  intros x. subst x.
  destruct (checkDeploymentStatus_keeps P w w eq_refl) as (Hw & Ht & _).
  split; [done|]. split; [done|]. clear Hw Ht.
  unfold checkDeploymentStatus, mbind, M_bind, bind, result, trace.
  split.
  - intros Hm.
    destruct (newConnection_silent P w) as [[[]|e] ->]; [|done].
    unfold getenv. cbn beta iota.
    destruct (newPublicKey_silent P (env w !! "TREASURY_PUBKEY") w) as [[t|e] ->]; [|done].
    unfold readMintJson. cbn beta iota. by rewrite Hm.
  - intros ((url & Hu & Huv) & (t & Ht & Htv) & Hm).
    unfold newConnection, getenv, newPublicKey, readMintJson, mbind, M_bind, bind, ret.
    rewrite Hu, Huv. cbn beta iota. rewrite Ht, Htv. cbn beta iota.
    destruct (mintJson (files w)) as [m|]; [|done].
    rewrite (Hm m eq_refl). cbn beta iota. unfold tryCatch.
    unfold getMint, getTokenAccountBalance, getAccountInfo, rpc, mret, M_ret, ret.
    repeat (case_match; simplify_eq/=); done.
Qed.

Lemma checkDeploymentStatus_only_reads_witness :
  let w := sampleWorld sampleEnv cached ∅ [] in
  result (checkDeploymentStatus samplePlatform w) = Return tt.
Proof.
  intros w.
  refine (proj2 (proj2 (proj2 (checkDeploymentStatus_only_reads samplePlatform w))) _).
  split; [|split].
  - eexists. split; reflexivity.
  - eexists. split; reflexivity.
  - intros m [= <-]. reflexivity.
Defined.

(** ** An endpoint that does not answer *)

Section Offline.

Context (P : Platform) (w0 : World).

Lemma off_generate : keeps (offlineLike w0) readEvent anything (generate P).
Proof. intros w Hw. split; [exact Hw|]. by split; [constructor|]. Qed.

Lemma off_writeUserAuthJson k :
  keeps (offlineLike w0) readEvent anything (writeUserAuthJson k).
Proof. intros w Hw. split; [exact Hw|]. by split; [constructor|]. Qed.

Lemma off_loadOrCreateUserAuth :
  keeps (offlineLike w0) readEvent anything (loadOrCreateUserAuth P).
Proof.
  unfold loadOrCreateUserAuth.
  repeat first [keeps_structure | keeps_reads | apply off_generate
               | apply off_writeUserAuthJson].
Qed.

(** A read through the connection never returns. *)
Lemma off_rpc {A} call (answer : World → Completion A) :
  readEvent (EvRpc call) → keeps (offlineLike w0) readEvent (λ _, False) (rpc call answer).
Proof.
  intros HT w Hw. pose proof Hw as (Hoff & _). unfold rpc, after, trace, result.
  rewrite Hoff. cbn [fst snd]. split; [done|]. split; [by repeat constructor|].
  intros a [=].
Qed.

Lemma off_sendViaRelayer pk url tx apiKey :
  keeps (offlineLike w0) readEvent (λ _, False) (sendViaRelayer P pk url tx apiKey).
Proof.
  intros w Hw. pose proof Hw as (Hoff & _).
  rewrite (sendViaRelayer_offline _ _ _ _ _ _ Hoff).
  unfold after, trace, result. cbn [fst snd]. split; [done|].
  split; [by repeat constructor|]. intros a [=].
Qed.

Lemma off_stop {A B} (m : M A) (k : A → M B) (R : B → Prop) :
  keeps (offlineLike w0) readEvent (λ _, False) m →
  keeps (offlineLike w0) readEvent R (m ≫= k).
Proof. intros Hm. eapply keeps_bind; [exact Hm|]. by intros a []. Qed.

(** The token library asks the endpoint for the rent-exempt balance before
    it sends anything. *)
Lemma off_createMint payer mintAuthority freezeAuthority decimals keypair :
  keeps (offlineLike w0) readEvent (λ _, False)
    (createMint P payer mintAuthority freezeAuthority decimals keypair).
Proof. unfold createMint. apply off_stop. apply off_rpc. exact Logic.I. Qed.

Ltac off_steps :=
  repeat first [ apply off_stop;
                 first [ apply off_sendViaRelayer | apply off_rpc; exact Logic.I
                       | apply off_createMint ]
               | keeps_structure | keeps_reads | apply off_generate
               | apply off_loadOrCreateUserAuth ].

Lemma off_createTokenMint :
  keeps (offlineLike w0) readEvent (λ _, False) (createTokenMint P).
Proof.
  unfold createTokenMint.
  do 5 (keeps_structure; [first [keeps_reads | apply off_loadOrCreateUserAuth]|]).
  eapply (keeps_bind _ _ (λ existing, existing = None)).
  - destruct a3 as [mint|]; [|by apply keeps_ret].
    keeps_structure; [keeps_reads|]. apply off_stop. apply off_rpc. exact Logic.I.
  - intros existing ->. off_steps.
Qed.

Lemma off_mintInitialSupply :
  keeps (offlineLike w0) readEvent (λ _, False) (mintInitialSupply P).
Proof. unfold mintInitialSupply. off_steps. Qed.

Lemma off_setTokenMetadata :
  keeps (offlineLike w0) readEvent (λ _, False) (setTokenMetadata P).
Proof. unfold setTokenMetadata. off_steps. Qed.

Lemma off_lockAuthorities :
  keeps (offlineLike w0) readEvent (λ _, False) (lockAuthorities P).
Proof. unfold lockAuthorities. off_steps. Qed.

Lemma off_stopped {A} (m : M A) :
  keeps (offlineLike w0) readEvent (λ _, False) m →
  rpcReachable w0 = false → stoppedReading w0 (m w0).
Proof.
  intros Hm Hoff. destruct (Hm w0) as ((_ & _ & Hc & Hl & Hs) & Ht & Hr); [done|].
  destruct (readEvent_quiet _ Ht) as (? & ? & _).
  repeat split; try done.
  destruct (result (m w0)) as [a|e]; [by destruct (Hr a)|by eexists].
Qed.

End Offline.

(** X13.  When the RPC endpoint does not answer, every deployment step --
    and the full deployment -- throws having at most read: nothing is
    serialized or POSTed, and the checkpoint, the ledger and the relay are
    left as they were. *)
Theorem offline_steps_stop (P : Platform) (w : World) :
  rpcReachable w = false →
  stoppedReading w (createTokenMint P w) ∧
  stoppedReading w (mintInitialSupply P w) ∧
  stoppedReading w (setTokenMetadata P w) ∧
  stoppedReading w (lockAuthorities P w) ∧
  stoppedReading w (runAllSteps P w).
Proof.
  intros Hoff. repeat split_and.
  - by apply off_stopped; [apply off_createTokenMint|].
  - by apply off_stopped; [apply off_mintInitialSupply|].
  - by apply off_stopped; [apply off_setTokenMetadata|].
  - by apply off_stopped; [apply off_lockAuthorities|].
  - apply off_stopped; [|done]. unfold runAllSteps. apply off_stop, off_createTokenMint.
Qed.

Lemma offline_steps_stop_witness :
  let w := {| env := sampleEnv; files := cached; ledger := createdLedger;
              latestBlockhash := "Blockhash1"; rpcReachable := false;
              relayScript := [settled "Sig1"]; entropy := 0 |} in
  stoppedReading w (runAllSteps samplePlatform w).
Proof.
  intros w.
  refine (proj2 (proj2 (proj2 (proj2 (offline_steps_stop samplePlatform w _))))).
  reflexivity.
Defined.

(** ** Rollback *)

(** X14.  [rollback] deletes nothing unless it gets through: when it throws
    -- the checkpoint is malformed, the endpoint is malformed or does not
    answer -- the cache directory and the rest of the world are exactly as
    before.  It never hands anything to the submitter, and without a
    checkpoint it makes no network call and cannot fail. *)
Theorem rollback_failure_deletes_nothing (P : Platform) (w : World) :
  let x := rollback P w in
  (∀ e, result x = Throw e → after x = w) ∧
  Forall readEvent (trace x) ∧
  ledger (after x) = ledger w ∧
  (mintJson (files w) = None → result x = Return tt ∧ trace x = []).
Proof.
  intros x. subst x.
  unfold rollback, unlinkMintJson, unlinkUserAuthJson, readMintJson, readUserAuthJson,
    getAccountInfo, rpc, newPublicKey, newConnection, getenv, mbind, M_bind, bind,
    mret, M_ret, ret, throw, result, after, trace.
  cbn beta iota.
  destruct (mintJson (files w)) as [m|] eqn:Hm.
  - repeat split_and; [| |by repeat (case_match; simplify_eq/=)|done].
    + intros e. repeat (case_match; simplify_eq/=); done.
    + repeat (case_match; simplify_eq/=); repeat constructor.
  - repeat split_and; try (intros; by repeat (case_match; simplify_eq/=)).
Qed.

Lemma rollback_failure_deletes_nothing_witness :
  let w := {| env := sampleEnv; files := cached; ledger := createdLedger;
              latestBlockhash := "Blockhash1"; rpcReachable := false;
              relayScript := []; entropy := 0 |} in
  after (rollback samplePlatform w) = w.
Proof.
  intros w.
  refine (proj1 (rollback_failure_deletes_nothing samplePlatform w) "fetch failed" _).
  reflexivity.
Defined.

(** ** The required files *)

Lemma checkAndCreate_fold (entries : list (string * string)) (st : bool * gmap string string) :
  let st' := foldl (λ st entry, checkAndCreate entry.1 entry.2 st) st entries in
  (st'.1 = true ↔ st.1 = true ∧ ∀ entry, entry ∈ entries → is_Some (st.2 !! entry.1)) ∧
  (st'.1 = true → st'.2 = st.2) ∧
  (∀ f, is_Some (st.2 !! f) → st'.2 !! f = st.2 !! f) ∧
  (∀ entry, entry ∈ entries → is_Some (st'.2 !! entry.1)) ∧
  (∀ f, f ∉ entries.*1 → st'.2 !! f = st.2 !! f).
Proof.
  revert st. induction entries as [|[file content] rest IH]; intros [b fs]; cbn [foldl].
  - cbv zeta. cbn [fst snd]. repeat split_and; try done.
    + split; [|by intros []]. intros ->. split; [done|]. by intros ? ?%elem_of_nil.
    + by intros ? ?%elem_of_nil.
  - specialize (IH (checkAndCreate file content (b, fs))). cbv zeta in IH |- *.
    destruct IH as (IH1 & IH2 & IH3 & IH4 & IH5).
    unfold checkAndCreate in *. cbn [fst snd] in *.
    destruct (fs !! file) as [old|] eqn:Hfile; cbn [fst snd] in *.
    + repeat split_and.
      * rewrite IH1. split.
        -- intros [Hb Hall]. split; [done|].
           intros entry [->|Hin]%elem_of_cons; [|by apply Hall]. cbn [fst]. by rewrite Hfile.
        -- intros [Hb Hall]. split; [done|]. intros entry Hin. apply Hall. by right.
      * done.
      * done.
      * intros entry [->|Hin]%elem_of_cons; [|by apply IH4].
        cbn [fst]. rewrite IH3; by rewrite Hfile.
      * intros f Hf. apply IH5. rewrite fmap_cons in Hf. cbn [fst] in Hf.
        intros Hin. apply Hf. by right.
    + assert (Hne : ∀ f, is_Some (fs !! f) → file ≠ f).
      { intros f Hf <-. rewrite Hfile in Hf. by destruct Hf. }
      repeat split_and.
      * split.
        -- intros Ht. by apply IH1 in Ht as [[=] _].
        -- intros [_ Hall]. destruct (Hall (file, content)) as [? Hsome]; [by left|].
           cbn [fst] in Hsome. by rewrite Hfile in Hsome.
      * intros Ht. by apply IH1 in Ht as [[=] _].
      * intros f Hf. rewrite IH3.
        -- apply lookup_insert_ne. by apply Hne.
        -- rewrite lookup_insert_ne; [done|]. by apply Hne.
      * intros entry [->|Hin]%elem_of_cons; [|by apply IH4].
        cbn [fst]. rewrite IH3; by rewrite lookup_insert_eq.
      * intros f Hf. rewrite fmap_cons in Hf. cbn [fst] in Hf.
        rewrite IH5; [|intros Hin; apply Hf; by right].
        apply lookup_insert_ne. intros <-. apply Hf. by left.
Qed.

Lemma npmInstall_other (files : gmap string string) (f : string) :
  f ∉ NPM_WRITES → npmInstall files !! f = files !! f.
Proof.
  unfold npmInstall. induction NPM_WRITES as [|g rest IH]; intros Hf; cbn [foldr]; [done|].
  rewrite lookup_insert_ne; [|intros ->; apply Hf; by left].
  apply IH. intros Hin. apply Hf. by right.
Qed.

Lemma npmInstall_keeps (files : gmap string string) (f : string) :
  is_Some (files !! f) → is_Some (npmInstall files !! f).
Proof.
  unfold npmInstall. induction NPM_WRITES as [|g rest IH]; intros Hf; cbn [foldr]; [done|].
  destruct (decide (g = f)) as [->|Hne].
  - rewrite lookup_insert_eq. by eexists.
  - rewrite lookup_insert_ne; [|done]. by apply IH.
Qed.

(** X17.  [checkAndCreateFiles] returns [true] exactly when every required
    file already exists, and then it changes nothing and installs nothing;
    otherwise it returns [false], having run [npm install] once.  Either way
    every required file exists afterwards, and apart from what [npm install]
    writes no existing file has been overwritten and no other file touched. *)
Theorem checkAndCreateFiles_creates_only_missing (entries : list (string * string))
    (p : Project) :
  let r := checkAndCreateFiles entries p in
  (r.1 = true ↔ ∀ entry, entry ∈ entries → is_Some (projectFiles p !! entry.1)) ∧
  (r.1 = true → r.2 = p) ∧
  (r.1 = false → npmInstalls r.2 = S (npmInstalls p)) ∧
  (∀ entry, entry ∈ entries → is_Some (projectFiles r.2 !! entry.1)) ∧
  (∀ f, is_Some (projectFiles p !! f) → f ∉ NPM_WRITES →
     projectFiles r.2 !! f = projectFiles p !! f) ∧
  (∀ f, f ∉ entries.*1 → f ∉ NPM_WRITES → projectFiles r.2 !! f = projectFiles p !! f).
Proof.
  intros r. subst r. unfold checkAndCreateFiles.
  destruct (checkAndCreate_fold entries (true, projectFiles p)) as (H1 & H2 & H3 & H4 & H5).
  cbv zeta in *. cbn [fst snd] in *.
  destruct (foldl _ _ entries) as [[] files'] eqn:Hfold;
    cbn [fst snd projectFiles npmInstalls] in *.
  - repeat split_and; try done.
    + split; [intros _; by apply H1|done].
    + intros _. rewrite (H2 eq_refl). by destruct p.
    + intros f Hf _. by apply H3.
    + intros f Hf _. by apply H5.
  - repeat split_and; try done.
    + split; [done|]. intros Hall. apply H1. by split.
    + intros entry Hin. by apply npmInstall_keeps, H4.
    + intros f Hf Hn. rewrite npmInstall_other by done. by apply H3.
    + intros f Hf Hn. rewrite npmInstall_other by done. by apply H5.
Qed.

(** X18.  Running [checkAndCreateFiles] again finds every file in place:
    the second run returns [true] and leaves the project as the first run
    left it, so the start-up stops for missing files at most once. *)
Theorem checkAndCreateFiles_twice (entries : list (string * string)) (p : Project) :
  let r := checkAndCreateFiles entries p in
  checkAndCreateFiles entries r.2 = (true, r.2).
Proof.
  intros r.
  assert (Hall : ∀ entry, entry ∈ entries → is_Some (projectFiles r.2 !! entry.1)).
  { subst r. unfold checkAndCreateFiles.
    destruct (checkAndCreate_fold entries (true, projectFiles p)) as (_ & _ & _ & H4 & _).
    cbv zeta in *. destruct (foldl _ _ entries) as [[] files']; cbn [fst snd] in *; [done|].
    intros entry Hin. by apply npmInstall_keeps, H4. }
  generalize dependent r. intros r Hall. clear p.
  unfold checkAndCreateFiles.
  destruct (checkAndCreate_fold entries (true, projectFiles r.2)) as (H1 & H2 & _).
  cbv zeta in *. cbn [fst snd] in *.
  destruct (foldl _ _ entries) as [[] files'] eqn:Hfold; cbn [fst snd] in *.
  - rewrite (H2 eq_refl). by destruct r.2.
  - assert (false = true) as [=]. apply H1. by split.
Qed.

(** ** Start-up *)

Section StartupChecks.

Context (P : Platform) (entries : list (string * string)) (project : Project)
  (argv : list string).

Lemma grokCopilot_checked inputs w :
  let x := grokCopilot P entries project argv inputs w in
  startupPassed P entries project inputs w ∨ (after x = w ∧ Forall readEvent (trace x)).
Proof.
  cbv zeta. unfold startupPassed, grokCopilot.
  destruct (checkAndCreateFiles entries project).1 eqn:Hf; cbn [negb]; [|by right].
  destruct inputs as [|answer rest]; [by right|].
  destruct (confirmOwnerAddress answer) eqn:Hc; cbn [negb]; [|by right].
  destruct (checkEnv_reads P w) as (Hw & Ht). unfold mbind, M_bind, bind.
  unfold after, trace, result in *.
  destruct (checkEnv P w) as [[[[]|e] w1] t1]; cbn [fst snd negb] in *.
  - left. split; [done|]. split; [by eauto|done].
  - right. cbn. split; [done|]. by rewrite app_nil_r.
  - by right.
Qed.

Lemma grokCopilot_all answer rest w :
  (checkAndCreateFiles entries project).1 = true →
  confirmOwnerAddress answer = true →
  result (checkEnv P w) = Return true →
  "--all" ∈ argv →
  result (grokCopilot P entries project argv (answer :: rest) w) =
    match result ((runAllSteps P;; checkDeploymentStatus P) w) with
    | Return _ => Return (Exited 0)
    | Throw e => Throw e
    end.
Proof.
  intros Hf Hc Hce Hall. unfold grokCopilot. rewrite Hf, Hc. cbn [negb].
  destruct (checkEnv_reads P w) as (Hw & _). unfold mbind, M_bind, bind.
  unfold after, result in *.
  destruct (checkEnv P w) as [[r w1] t1]. cbn [fst snd] in *. subst r w1. cbn [negb].
  rewrite bool_decide_eq_true_2 by done.
  destruct (runAllSteps P w) as [[[[]|e] w2] t2]; [|done].
  by destruct (checkDeploymentStatus P w2) as [[[[]|e] w3] t3].
Qed.

End StartupChecks.

(** X19.  Nothing of the deployment happens before the three checks of the
    start-up.  When a required file was missing the run ends with exit code
    0 once the files are created; when the operator does not answer yes it
    ends with exit code 1 at once; when the environment check returns
    [false] it ends with exit code 1.  So a run that serialized or POSTed
    anything, or changed the environment, the cache, the ledger or the relay
    in any way, had the files in place, the owner address confirmed and the
    environment accepted -- with or without [--all]. *)
Theorem nothing_runs_before_the_checks (P : Platform) (entries : list (string * string))
    (project : Project) (argv inputs : list string) (w : World) :
  let x := grokCopilot P entries project argv inputs w in
  ((checkAndCreateFiles entries project).1 = false → x = (Return (Exited 0), w, [])) ∧
  (∀ answer rest,
     (checkAndCreateFiles entries project).1 = true →
     inputs = answer :: rest → confirmOwnerAddress answer = false →
     x = (Return (Exited 1), w, [])) ∧
  (∀ answer rest,
     (checkAndCreateFiles entries project).1 = true →
     inputs = answer :: rest → confirmOwnerAddress answer = true →
     result (checkEnv P w) = Return false →
     result x = Return (Exited 1)) ∧
  (serialized (trace x) ≠ [] ∨ posted (trace x) ≠ [] ∨ after x ≠ w →
     startupPassed P entries project inputs w).
Proof.
  intros x. subst x. repeat split_and.
  - intros Hf. unfold grokCopilot. by rewrite Hf.
  - intros answer rest Hf -> Hc. unfold grokCopilot. by rewrite Hf, Hc.
  - intros answer rest Hf -> Hc Hce. unfold grokCopilot. rewrite Hf, Hc. cbn [negb].
    unfold mbind, M_bind, bind, result in *.
    destruct (checkEnv P w) as [[r w1] t1]. cbn [fst] in Hce. by subst r.
  - intros Hdone.
    destruct (grokCopilot_checked P entries project argv inputs w) as [Hg|(Hw & Ht)]; [done|].
    destruct (readEvent_quiet _ Ht) as (Hs & Hp & _).
    by destruct Hdone as [?|[?|?]].
Qed.

Lemma nothing_runs_before_the_checks_witness :
  let w := sampleWorld sampleEnv noFiles ∅ [settled "Sig1"] in
  startupPassed samplePlatform [("package.json", "{}")]
    {| projectFiles := {["package.json" := "{}"]}; npmInstalls := 0 |} ["yes"; "2"] w.
Proof.
  intros w.
  refine (proj2 (proj2 (proj2 (nothing_runs_before_the_checks samplePlatform
            [("package.json", "{}")]
            {| projectFiles := {["package.json" := "{}"]}; npmInstalls := 0 |}
            [] ["yes"; "2"] w))) _).
  right. right. intros H. apply (f_equal (λ w', userAuthJson (files w'))) in H.
  vm_compute in H. discriminate H.
Defined.

(** X20.  The process never ends on an uncaught error: whatever
    [grokCopilot] throws -- from the environment check, the status display
    or any action of the menu -- is turned into exit code 1.  With [--all],
    past the checks, the exit code is 0 exactly when the full deployment and
    the status display after it went through, and no line beyond the
    confirmation is read. *)
Theorem main_exit_code (P : Platform) (entries : list (string * string))
    (project : Project) (argv inputs : list string) (w : World) :
  let x := main P entries project argv inputs w in
  (∃ s, result x = Return s) ∧
  (∀ e, result (grokCopilot P entries project argv inputs w) = Throw e →
        result x = Return (Exited 1)) ∧
  (startupPassed P entries project inputs w → "--all" ∈ argv →
     result x =
       Return (Exited (if result ((runAllSteps P;; checkDeploymentStatus P) w)
                       is Return _ then 0 else 1))).
Proof.
  intros x. subst x. unfold main. repeat split_and.
  - unfold tryCatch, result.
    destruct (grokCopilot P entries project argv inputs w) as [[[s|e] w1] t1];
      by eexists.
  - intros e. unfold tryCatch, result.
    by destruct (grokCopilot P entries project argv inputs w) as [[[s|e'] w1] t1].
  - intros (Hf & (answer & rest & -> & Hc) & Hce) Hall.
    pose proof (grokCopilot_all P entries project argv answer rest w Hf Hc Hce Hall) as Hrun.
    unfold tryCatch, result in *.
    destruct (grokCopilot P entries project argv (answer :: rest) w) as [[[s|e] w1] t1];
      cbn [fst] in *.
    + by destruct ((runAllSteps P;; checkDeploymentStatus P) w) as [[[[]|e] w2] t2].
    + by destruct ((runAllSteps P;; checkDeploymentStatus P) w) as [[[[]|e'] w2] t2].
Qed.

Lemma main_exit_code_witness :
  let w := sampleWorld sampleEnv noFiles ∅ [] in
  result (main samplePlatform [("package.json", "{}")]
            {| projectFiles := {["package.json" := "{}"]}; npmInstalls := 0 |}
            ["--all"] ["yes"] w) = Return (Exited 1).
Proof.
  intros w.
  refine (proj2 (proj2 (main_exit_code samplePlatform [("package.json", "{}")]
            {| projectFiles := {["package.json" := "{}"]}; npmInstalls := 0 |}
            ["--all"] ["yes"] w)) _ _).
  - split; [reflexivity|]. split; [by eexists _, _|]. reflexivity.
  - apply (bool_decide_unpack _). reflexivity.
Defined.

(** ** The menu *)

Lemma selectAction_invalid (P : Platform) choice w :
  choice ∉ menuChoices → selectAction P choice w = (Return false, w, []).
Proof.
  intros Hc. unfold selectAction.
  repeat match goal with
         | |- context [String.eqb choice ?c] =>
             destruct (String.eqb_spec choice c) as [Heq|_];
               [exfalso; apply Hc; rewrite Heq; apply (bool_decide_unpack _);
                vm_compute; exact Logic.I|]
         end.
  done.
Qed.

(** X21.  The menu ignores a line that is not one of 1-9: it changes nothing
    and asks again.  Choice 9 ends the session with exit code 0 without
    reading further.  An action that throws ends the loop with its error --
    the lines after it are never read -- so a failed step costs the
    session. *)
Theorem menu_ignores_invalid_and_stops_on_failure (P : Platform) (w : World) :
  (∀ junk rest, Forall (λ choice, choice ∉ menuChoices) junk →
     grokCopilotMenu P (junk ++ rest)%list w = grokCopilotMenu P rest w) ∧
  (∀ rest, grokCopilotMenu P ("9" :: rest) w = (Return (Exited 0), w, [])) ∧
  (∀ choice rest e, result (selectAction P choice w) = Throw e →
     grokCopilotMenu P (choice :: rest) w =
       (Throw e, after (selectAction P choice w), trace (selectAction P choice w))).
Proof.
  repeat split_and.
  - intros junk rest Hjunk. induction Hjunk as [|choice junk Hc _ IH]; [done|].
    cbn [app grokCopilotMenu]. unfold mbind, M_bind, bind.
    rewrite (selectAction_invalid P choice w Hc). rewrite IH.
    by destruct (grokCopilotMenu P rest w) as [[r w2] t2].
  - done.
  - intros choice rest e. cbn [grokCopilotMenu]. unfold mbind, M_bind, bind, result, after, trace.
    destruct (selectAction P choice w) as [[[b|e'] w1] t1]; [done|]. by intros [= ->].
Qed.

(** ** The dry-run action *)

Section DryRunAction.

Context (P : Platform).

Lemma runAllSteps_never I T :
  (∀ e, T e) → (∀ w n, I w → I (setEntropy n w)) →
  (∀ w k, I w → userAuthJson (files w) = None →
     I (setFiles {| mintJson := mintJson (files w); userAuthJson := Some k |} w)) →
  (∀ w l, I w → I (setLedger l w)) →
  keeps I T (λ _, False) (runAllSteps P).
Proof. intros HT He Hi Hl. by apply steps_runAllSteps. Qed.

(** Choice 7, then whatever follows: the run is the run of the full
    deployment with [DRY_RUN] set, and ends with its error. *)
Lemma dryRunAction_run rest w e :
  result (runAllSteps P (dryRunSelected w)) = Throw e →
  grokCopilotMenu P ("7" :: rest) w =
    (Throw e, after (runAllSteps P (dryRunSelected w)),
     trace (runAllSteps P (dryRunSelected w))).
Proof.
  intros He.
  cbn [grokCopilotMenu]. unfold selectAction. cbn [String.eqb Ascii.eqb Bool.eqb].
  unfold setenv, mbind, M_bind, bind, result, after, trace in *.
  fold (dryRunSelected w).
  destruct (runAllSteps P (dryRunSelected w)) as [[r w1] t1]. cbn [fst snd] in *.
  by subst r.
Qed.

Lemma configured_dryRunSelected w relayer treasury :
  Configured P w relayer treasury → Configured P (dryRunSelected w) relayer treasury.
Proof.
  intros ((url & Hu & Hv) & (Hr & Hrv) & (Ht & Htv) & Hrpc).
  unfold Configured, dryRunSelected. cbn [env setEnv rpcReachable].
  rewrite !lookup_insert_ne by done. split; [by exists url|done].
Qed.

End DryRunAction.



(** X9.  The full deployment never completes: [runAllSteps] throws in every
    world.  So choices 1, 3, 4 and 7 of the menu always end the session,
    and a run with [--all] that gets past the start-up checks always ends
    with exit code 1. *)
Theorem deployment_never_completes (P : Platform) (w : World) :
  (∃ e, result (runAllSteps P w) = Throw e) ∧
  (∀ choice rest, choice ∈ ["1"; "3"; "4"; "7"] →
     ∃ e, result (grokCopilotMenu P (choice :: rest) w) = Throw e) ∧
  (∀ entries project argv inputs,
     startupPassed P entries project inputs w → "--all" ∈ argv →
     result (main P entries project argv inputs w) = Return (Exited 1)).
Proof.
  assert (Hall : ∀ w', ∃ e, result (runAllSteps P w') = Throw e).
  { intros w'. apply (never_returns (λ _, True) anyEvent); [by apply steps_runAllSteps|done]. }
  assert (Hmint : ∀ w', ∃ e, result (mintInitialSupply P w') = Throw e).
  { intros w'. apply (never_returns (λ _, True) anyEvent); [by apply steps_mintInitialSupply|done]. }
  assert (Hmeta : ∀ w', ∃ e, result (setTokenMetadata P w') = Throw e).
  { intros w'. apply (never_returns (λ _, True) anyEvent); [by apply steps_setTokenMetadata|done]. }
  split; [apply Hall|]. split.
  - intros choice rest Hin.
    assert (Hsel : ∃ e, result (selectAction P choice w) = Throw e).
    { repeat (apply elem_of_cons in Hin as [->|Hin]).
      - destruct (Hall w) as [e He]. exists e. by apply result_bind_throw.
      - destruct (Hmint w) as [e He]. exists e. by apply result_bind_throw.
      - destruct (Hmeta w) as [e He]. exists e. by apply result_bind_throw.
      - destruct (Hall (dryRunSelected w)) as [e He]. exists e.
        unfold selectAction. cbn [String.eqb Ascii.eqb Bool.eqb].
        erewrite run_bind by reflexivity. rewrite result_prefixed.
        by apply result_bind_throw.
      - by apply elem_of_nil in Hin. }
    destruct Hsel as [e He]. exists e. cbn [grokCopilotMenu]. by apply result_bind_throw.
  - intros entries project argv inputs (Hf & (answer & rest & -> & Hc) & Hce) Hargv.
    pose proof (grokCopilot_all P entries project argv answer rest w Hf Hc Hce Hargv) as Hrun.
    destruct (Hall w) as [e He].
    rewrite (result_bind_throw (runAllSteps P) (λ _, checkDeploymentStatus P) w e He) in Hrun.
    unfold main, tryCatch, result in *.
    destruct (grokCopilot P entries project argv (answer :: rest) w) as [[r w1] t1].
    cbn [fst] in Hrun. by subst r.
Qed.

Lemma deployment_never_completes_witness :
  let w := sampleWorld sampleEnv noFiles ∅ [] in
  result (main samplePlatform [("package.json", "{}")]
            {| projectFiles := {["package.json" := "{}"]}; npmInstalls := 0 |}
            ["--all"] ["yes"] w) = Return (Exited 1).
Proof.
  intros w.
  refine (proj2 (proj2 (deployment_never_completes samplePlatform w))
            [("package.json", "{}")]
            {| projectFiles := {["package.json" := "{}"]}; npmInstalls := 0 |}
            ["--all"] ["yes"] _ _).
  - split; [reflexivity|]. split; [by eexists _, _|]. reflexivity.
  - apply (bool_decide_unpack _). reflexivity.
Defined.

(** ** A relay that is not configured *)



(** ** The identity file as a side effect *)

Section IdentityFirst.

Context (P : Platform).

Lemma newConnection_valid w url :
  env w !! "RPC_URL" = Some url → validEndpoint P url = true →
  newConnection P w = (Return tt, w, []).
Proof.
  intros Hu Hv. unfold newConnection, getenv, mbind, M_bind, bind. by rewrite Hu, Hv.
Qed.

Lemma newConnection_invalid w :
  (∀ url, env w !! "RPC_URL" = Some url → validEndpoint P url = false) →
  ∃ e, newConnection P w = (Throw e, w, []).
Proof.
  intros Hbad. unfold newConnection, getenv, mbind, M_bind, bind, ret, throw.
  destruct (env w !! "RPC_URL") as [url|]; [|by eexists].
  rewrite (Hbad url eq_refl). by eexists.
Qed.

Lemma afterUserAuth_idem w :
  userAuthOf P (afterUserAuth P w) = userAuthOf P w ∧
  afterUserAuth P (afterUserAuth P w) = afterUserAuth P w.
Proof. by destruct w as [e [mj [k|]] l bh r s n]. Qed.

(** A step run where the identity is missing is the step run on the
    identity it creates. *)
Lemma step_after_identity {A} (k : Keypair → M A) w url :
  env w !! "RPC_URL" = Some url → validEndpoint P url = true →
  (newConnection P ≫= λ _, loadOrCreateUserAuth P ≫= k) w =
  (newConnection P ≫= λ _, loadOrCreateUserAuth P ≫= k) (afterUserAuth P w).
Proof.
  intros Hu Hv. destruct (afterUserAuth_idem w) as (Hk & Hw).
  rewrite (run_bind _ _ _ _ _ _ (newConnection_valid w url Hu Hv)).
  rewrite (run_bind _ _ _ _ _ _ (newConnection_valid (afterUserAuth P w) url Hu Hv)).
  rewrite !prefixed_nil.
  rewrite (run_bind _ _ _ _ _ _ (loadOrCreateUserAuth_run P w)).
  rewrite (run_bind _ _ _ _ _ _ (loadOrCreateUserAuth_run P (afterUserAuth P w))).
  by rewrite Hk, Hw.
Qed.

Lemma step_without_endpoint {A} (k : unit → M A) w :
  (∀ url, env w !! "RPC_URL" = Some url → validEndpoint P url = false) →
  ∃ e, (newConnection P ≫= k) w = (Throw e, w, []).
Proof.
  intros Hbad. destruct (newConnection_invalid w Hbad) as [e He]. exists e.
  by apply run_bind_throw.
Qed.

End IdentityFirst.

(** X23.  Every step creates the deployer identity before it checks
    anything but the endpoint URL.  With a well-formed RPC URL each of the
    four steps leaves [user_auth.json] in place -- the keypair that was
    there, or else a fresh one -- even when the step then fails, for
    instance because there is no checkpoint.  With a malformed or missing
    RPC URL each step throws at once and touches nothing. *)
Theorem steps_leave_identity (P : Platform) (w : World) :
  let left := λ w', userAuthJson (files w') = Some (userAuthOf P w) in
  ((∃ url, env w !! "RPC_URL" = Some url ∧ validEndpoint P url = true) →
     left (after (createTokenMint P w)) ∧
     left (after (mintInitialSupply P w)) ∧
     left (after (setTokenMetadata P w)) ∧
     left (after (lockAuthorities P w))) ∧
  ((∀ url, env w !! "RPC_URL" = Some url → validEndpoint P url = false) →
     (∃ e, createTokenMint P w = (Throw e, w, [])) ∧
     (∃ e, mintInitialSupply P w = (Throw e, w, [])) ∧
     (∃ e, setTokenMetadata P w = (Throw e, w, [])) ∧
     (∃ e, lockAuthorities P w = (Throw e, w, []))).
Proof.
  intros left. split.
  - intros (url & Hu & Hv).
    set (J := λ (e : gmap string string) (f : Files), userAuthJson f = Some (userAuthOf P w)).
    assert (HJ : ∀ e f k', J e f → userAuthJson f = None →
                   J e {| mintJson := mintJson f; userAuthJson := Some k' |}).
    { intros e f k' Hf Hn. unfold J in Hf. congruence. }
    assert (HT : ∀ e, anyEvent e) by done.
    assert (H0 : onCache J (afterUserAuth P w)) by done.
    repeat split_and.
    + unfold createTokenMint. rewrite (step_after_identity P _ w url Hu Hv).
      by destruct (frame_createTokenMint P J anyEvent HT HJ _ H0) as (? & _).
    + unfold mintInitialSupply. rewrite (step_after_identity P _ w url Hu Hv).
      by destruct (frame_mintInitialSupply P J anyEvent HT HJ _ H0) as (? & _).
    + unfold setTokenMetadata. rewrite (step_after_identity P _ w url Hu Hv).
      by destruct (frame_setTokenMetadata P J anyEvent HT HJ _ H0) as (? & _).
    + unfold lockAuthorities. rewrite (step_after_identity P _ w url Hu Hv).
      by destruct (frame_lockAuthorities P J anyEvent HT HJ _ H0) as (? & _).
  - intros Hbad. repeat split_and; by apply step_without_endpoint.
Qed.

Lemma steps_leave_identity_witness :
  let w := sampleWorld sampleEnv noFiles ∅ [] in
  userAuthJson (files (after (mintInitialSupply samplePlatform w))) =
    Some (userAuthOf samplePlatform w).
Proof.
  intros w.
  refine (proj1 (proj2 (proj1 (steps_leave_identity samplePlatform w) _))).
  eexists. split; reflexivity.
Defined.

(** ** Who pays *)

Section Payer.

Context (P : Platform) (u : Keypair).

Lemma payer_rpc {A} call (answer : World → Completion A) :
  keeps (holds u) (paidByDeployer u) anything (rpc call answer).
Proof. by apply keeps_rpc. Qed.

Lemma payer_loadOrCreateUserAuth :
  keeps (holds u) (paidByDeployer u) (λ k, k = u) (loadOrCreateUserAuth P).
Proof.
  intros w Hw. rewrite loadOrCreateUserAuth_run.
  unfold after, trace, result, userAuthOf. cbn [fst snd].
  rewrite (afterUserAuth_present P w u Hw), Hw. split; [done|]. split; [constructor|].
  by intros k [= <-].
Qed.

Lemma payer_generate : keeps (holds u) (paidByDeployer u) anything (generate P).
Proof. intros w Hw. split; [exact Hw|]. by split; [constructor|]. Qed.

Lemma payer_sendAndConfirmTransaction ixs signers :
  keeps (holds u) (paidByDeployer u) anything (sendAndConfirmTransaction P ixs (u :: signers)).
Proof.
  unfold sendAndConfirmTransaction.
  eapply (keeps_bind _ _ anything); [apply payer_rpc|]. intros blockhash _. cbv zeta.
  intros w Hw. unfold after, trace, result.
  destruct (broadcast P _ (ledger w)); cbn [fst snd];
    (split; [exact Hw|]); (split; [|done]); by repeat constructor.
Qed.

Lemma payer_createMint mintAuthority freezeAuthority decimals keypair :
  keeps (holds u) (paidByDeployer u) anything (createMint P u mintAuthority freezeAuthority decimals keypair).
Proof.
  unfold createMint.
  repeat first [keeps_structure | apply payer_rpc | apply payer_sendAndConfirmTransaction].
Qed.

Lemma payer_getOrCreateAssociatedTokenAccount mint owner :
  keeps (holds u) (paidByDeployer u) anything (getOrCreateAssociatedTokenAccount P u mint owner).
Proof.
  unfold getOrCreateAssociatedTokenAccount, getAssociatedTokenAddressSync, getAccount.
  repeat first [keeps_structure | apply payer_rpc | apply payer_sendAndConfirmTransaction].
Qed.

Ltac payer_never :=
  first [ apply keeps_partialSign_stop; assumption
        | apply keeps_add_string | apply keeps_add_undefined
        | apply keeps_getTokenAccountBalance
        | apply keeps_createMetadataAccountV3 | apply keeps_updateMetadataAccountV3
        | lazymatch goal with
          | |- keeps _ _ _ (match ?x with _ => _ end) => destruct x; payer_never
          end ].

Ltac payer_run :=
  repeat first
    [ lazymatch goal with
      | |- keeps _ _ _ (loadOrCreateUserAuth _ ≫= _) =>
          eapply (keeps_bind _ _ (λ k, k = u));
          [apply payer_loadOrCreateUserAuth | intros ? ->]
      | |- keeps _ _ _ (match ?a with
                        | Some _ => getTokenAccountBalance _ ≫= _
                        | None => mret false
                        end ≫= _) =>
          eapply (keeps_bind _ _ (λ minted, minted = false));
          [ destruct a; [apply keeps_stop, keeps_getTokenAccountBalance | by apply keeps_ret]
          | intros ? ->; cbv beta iota zeta ]
      | |- keeps _ _ _ (collectAuthorityTxs _ _ _ _ _ _ ≫= _) =>
          eapply (keeps_bind _ _ (λ txs, txs = []));
          [by apply steps_collectAuthorityTxs | intros ? ->; by apply keeps_ret]
      | |- keeps _ _ _ (add _ (ItemPublicKey _) ≫= _) =>
          eapply (keeps_bind _ _ (λ tx', recentBlockhash tx' = None));
          [by apply keeps_add_key | intros ? ?]
      end
    | apply keeps_stop; payer_never
    | keeps_structure | apply keeps_getenv | apply keeps_readMintJson
    | apply keeps_newPublicKey | apply keeps_newConnection | apply payer_rpc
    | apply payer_generate | apply payer_createMint
    | apply payer_getOrCreateAssociatedTokenAccount
    | apply payer_sendAndConfirmTransaction | apply keeps_add ].

Lemma payer_createTokenMint : keeps (holds u) (paidByDeployer u) anything (createTokenMint P).
Proof. unfold createTokenMint. payer_run. Qed.

Lemma payer_mintInitialSupply : keeps (holds u) (paidByDeployer u) (λ _, False) (mintInitialSupply P).
Proof. unfold mintInitialSupply, mintTo. payer_run. Qed.

Lemma payer_setTokenMetadata : keeps (holds u) (paidByDeployer u) (λ _, False) (setTokenMetadata P).
Proof. unfold setTokenMetadata. payer_run. Qed.

Lemma payer_lockAuthorities : keeps (holds u) (paidByDeployer u) anything (lockAuthorities P).
Proof. unfold lockAuthorities. payer_run. Qed.

Lemma payer_runAllSteps : keeps (holds u) (paidByDeployer u) (λ _, False) (runAllSteps P).
Proof.
  unfold runAllSteps.
  eapply (keeps_bind _ _ anything); [apply payer_createTokenMint|]. intros _ _.
  apply keeps_stop, payer_mintInitialSupply.
Qed.

End Payer.

Section PayerOf.

Context (P : Platform) (w : World).

(** A run that starts by creating the connection and loading the identity
    shows what it shows when started on the identity it finds or creates. *)
Lemma payer_of_run {A} (m : M A) :
  (∀ url, env w !! "RPC_URL" = Some url → validEndpoint P url = true →
     m w = m (afterUserAuth P w)) →
  ((∀ url, env w !! "RPC_URL" = Some url → validEndpoint P url = false) →
     ∃ e, m w = (Throw e, w, [])) →
  (∀ u, keeps (holds u) (paidByDeployer u) anything m) →
  Forall (paidByDeployer (userAuthOf P w)) (trace (m w)).
Proof.
  intros Hvalid Hinvalid Hk.
  destruct (env w !! "RPC_URL") as [url|] eqn:Hu;
    [destruct (validEndpoint P url) eqn:Hv|].
  - rewrite (Hvalid url eq_refl Hv).
    by destruct (Hk (userAuthOf P w) (afterUserAuth P w)) as (_ & ? & _).
  - destruct Hinvalid as [e He]; [intros url' Hu'; congruence|]. rewrite He. constructor.
  - destruct Hinvalid as [e He]; [intros url' Hu'; congruence|]. rewrite He. constructor.
Qed.

Lemma payer_of_step {A} (k : Keypair → M A) :
  (∀ u, keeps (holds u) (paidByDeployer u) anything
          (newConnection P ≫= λ _, loadOrCreateUserAuth P ≫= k)) →
  Forall (paidByDeployer (userAuthOf P w))
    (trace ((newConnection P ≫= λ _, loadOrCreateUserAuth P ≫= k) w)).
Proof.
  apply payer_of_run.
  - intros url Hu Hv. by apply (step_after_identity P k w url).
  - apply step_without_endpoint.
Qed.

End PayerOf.

(** X15.  The relayer never pays.  No step, and no run of the full
    deployment, hands anything to the relay submitter: all a step shows is
    requests through the connection and transactions the token library
    sends itself, each with the deployer identity paying the fee and
    signing first. *)
Theorem deployer_pays_every_fee (P : Platform) (w : World) :
  let u := userAuthOf P w in
  Forall (paidByDeployer u) (trace (createTokenMint P w)) ∧
  Forall (paidByDeployer u) (trace (mintInitialSupply P w)) ∧
  Forall (paidByDeployer u) (trace (setTokenMetadata P w)) ∧
  Forall (paidByDeployer u) (trace (lockAuthorities P w)) ∧
  Forall (paidByDeployer u) (trace (runAllSteps P w)).
Proof.
  intros u. subst u. repeat split_and.
  - apply payer_of_step. intros u. apply payer_createTokenMint.
  - apply payer_of_step. intros u. apply keeps_never, payer_mintInitialSupply.
  - apply payer_of_step. intros u. apply keeps_never, payer_setTokenMetadata.
  - apply payer_of_step. intros u. apply payer_lockAuthorities.
  - apply payer_of_run.
    + intros url Hu Hv. unfold runAllSteps, mbind, M_bind, bind.
      fold (@bind). unfold createTokenMint at 1.
      by rewrite (step_after_identity P _ w url Hu Hv).
    + intros Hbad.
      assert (∃ e, createTokenMint P w = (Throw e, w, [])) as [e He]
        by (by apply step_without_endpoint).
      exists e. unfold runAllSteps, mbind, M_bind, bind. by rewrite He.
    + intros u. apply keeps_never, payer_runAllSteps.
Qed.

(** ** The confirmation of the owner address *)

Lemma lowerAscii_y c :
  lowerAscii c = Ascii.ascii_of_nat 121 →
  c = Ascii.ascii_of_nat 121 ∨ c = Ascii.ascii_of_nat 89.
Proof.
  destruct c as [[] [] [] [] [] [] [] []]; vm_compute; intros H;
    first [discriminate H | by left | by right].
Qed.

Lemma lowerAscii_e c :
  lowerAscii c = Ascii.ascii_of_nat 101 →
  c = Ascii.ascii_of_nat 101 ∨ c = Ascii.ascii_of_nat 69.
Proof.
  destruct c as [[] [] [] [] [] [] [] []]; vm_compute; intros H;
    first [discriminate H | by left | by right].
Qed.

Lemma lowerAscii_s c :
  lowerAscii c = Ascii.ascii_of_nat 115 →
  c = Ascii.ascii_of_nat 115 ∨ c = Ascii.ascii_of_nat 83.
Proof.
  destruct c as [[] [] [] [] [] [] [] []]; vm_compute; intros H;
    first [discriminate H | by left | by right].
Qed.

(** X24.  The owner address is confirmed by the word yes in any letter case
    and by nothing else: the answer is not trimmed, and neither 'y' nor an
    empty line will do. *)
Theorem confirmOwnerAddress_accepts_exactly (answer : string) :
  confirmOwnerAddress answer = true ↔ answer ∈ confirmations.
Proof.
  unfold confirmOwnerAddress. split.
  - intros H. apply String.eqb_eq in H.
    destruct answer as [|c1 [|c2 [|c3 [|c4 rest]]]]; try discriminate H.
    cbn [toLowerCase] in H. injection H as H1 H2 H3.
    apply lowerAscii_y in H1. apply lowerAscii_e in H2. apply lowerAscii_s in H3.
    destruct H1 as [-> | ->], H2 as [-> | ->], H3 as [-> | ->];
      apply (bool_decide_unpack _); vm_compute; exact Logic.I.
  - unfold confirmations. intros H.
    repeat (apply elem_of_cons in H as [-> | H]; [reflexivity|]).
    by apply elem_of_nil in H.
Qed.
